(** * Dealer directory seeding scripts: Excel Importer and Coverage Expander

    A shallow embedding of
      - [firebase/scripts/process-dealer-excel.py]   (the Importer), and
      - [firebase/scripts/expand-dealer-coverage.py] (the Expander),
    followed by the properties stated about them.

    Modelling conventions.
      - A Python [str] is a [string]: the model covers text whose characters
        have code points below 256, and among them only the ASCII ones are
        classified as digits, letters or white space.
      - A Python [int] is a [Z].
      - A numpy [float64] is a real number: [np.sin], [np.cos], [np.sqrt] and
        [np.arctan2] are the functions of real analysis and rounding is not
        part of the model.  A missing value (NaN) is [None].
      - A [dict] whose key order is observed is an association list that keeps
        insertion order; a [dict] or [set] that is only probed is a [gmap] or
        a [gset].
      - Console output is left out; the counters it reports are kept. *)

From Stdlib Require Import String Ascii List ZArith NArith QArith Lia.
From Stdlib Require Import Reals Lra.
From Stdlib Require Import Sorting.Mergesort Sorting.Sorted Sorting.Permutation.
From Stdlib Require Import Orders DecimalString.
From stdpp Require Import gmap strings.
Import ListNotations.

Local Open Scope string_scope.
Local Open Scope list_scope.

(* ===================================================================== *)
(** ** Python string primitives used by the two scripts *)
(* ===================================================================== *)

Module Py.

Definition code (c : ascii) : N := N_of_ascii c.

Definition in_range (lo hi : N) (c : ascii) : bool :=
  ((lo <=? code c) && (code c <=? hi))%N.

(** [c.isdigit()], [c.isspace()] and the regular-expression classes
    [[a-z]], [[A-Z]], [\s] on the ASCII range. *)
Definition is_digit (c : ascii) : bool := in_range 48 57 c.
Definition is_upper (c : ascii) : bool := in_range 65 90 c.
Definition is_lower (c : ascii) : bool := in_range 97 122 c.
Definition is_space (c : ascii) : bool := in_range 9 13 c || in_range 28 32 c.
Definition is_alnum (c : ascii) : bool := is_lower c || is_upper c || is_digit c.
Definition is_underscore (c : ascii) : bool := Ascii.eqb c "_".

Definition lower_char (c : ascii) : ascii :=
  if is_upper c then ascii_of_N (code c + 32) else c.
Definition upper_char (c : ascii) : ascii :=
  if is_lower c then ascii_of_N (code c - 32) else c.

Fixpoint map_chars (f : ascii -> ascii) (s : string) : string :=
  match s with
  | EmptyString => EmptyString
  | String c s' => String (f c) (map_chars f s')
  end.

(** [s.lower()] and [s.upper()]. *)
Definition lower (s : string) : string := map_chars lower_char s.
Definition upper (s : string) : string := map_chars upper_char s.

Definition is_empty (s : string) : bool :=
  match s with EmptyString => true | String _ _ => false end.

Fixpoint lstrip (p : ascii -> bool) (s : string) : string :=
  match s with
  | EmptyString => EmptyString
  | String c s' => if p c then lstrip p s' else s
  end.

Fixpoint rstrip (p : ascii -> bool) (s : string) : string :=
  match s with
  | EmptyString => EmptyString
  | String c s' =>
      let r := rstrip p s' in
      if p c && is_empty r then EmptyString else String c r
  end.

(** [s.strip()] removes white space at both ends, [s.strip('_')] removes
    underscores at both ends. *)
Definition strip_by (p : ascii -> bool) (s : string) : string :=
  rstrip p (lstrip p s).
Definition strip (s : string) : string := strip_by is_space s.
Definition strip_underscores (s : string) : string := strip_by is_underscore s.

Fixpoint all_chars (p : ascii -> bool) (s : string) : bool :=
  match s with
  | EmptyString => true
  | String c s' => p c && all_chars p s'
  end.

(** [s.isdigit()]: false on the empty string. *)
Definition isdigit (s : string) : bool :=
  negb (is_empty s) && all_chars is_digit s.

(** [''.join(c for c in s if p(c))]. *)
Fixpoint keep_chars (p : ascii -> bool) (s : string) : string :=
  match s with
  | EmptyString => EmptyString
  | String c s' => if p c then String c (keep_chars p s') else keep_chars p s'
  end.

(** The slice [s[:n]]. *)
Fixpoint take (n : nat) (s : string) : string :=
  match n, s with
  | O, _ => EmptyString
  | S _, EmptyString => EmptyString
  | S n', String c s' => String c (take n' s')
  end.

Fixpoint zeros (n : nat) : string :=
  match n with
  | O => EmptyString
  | S n' => String "0" (zeros n')
  end.

(** [s.zfill(width)]: pads on the left with ["0"], after a leading sign. *)
Definition zfill (width : nat) (s : string) : string :=
  let pad := zeros (width - String.length s) in
  match s with
  | String c s' =>
      if Ascii.eqb c "+" || Ascii.eqb c "-" then String c (pad ++ s')
      else pad ++ s
  | EmptyString => pad
  end.

(** [s.split('\n')[0]]. *)
Fixpoint first_line (s : string) : string :=
  match s with
  | EmptyString => EmptyString
  | String c s' =>
      if Ascii.eqb c "010" then EmptyString else String c (first_line s')
  end.

(** [c in s] for a one-character [c]. *)
Fixpoint contains (c : ascii) (s : string) : bool :=
  match s with
  | EmptyString => false
  | String c' s' => Ascii.eqb c c' || contains c s'
  end.

(** [str(n)] for an [int]. *)
Definition str_of_int (n : Z) : string := NilZero.string_of_int (Z.to_int n).

(** [re.sub(r'[p]+', '_', s)]: every maximal run of characters in the
    class [p] becomes one underscore.  [in_run] tells that the previous
    character belonged to a run that was already replaced. *)
Fixpoint sub_runs (p : ascii -> bool) (in_run : bool) (s : string) : string :=
  match s with
  | EmptyString => EmptyString
  | String c s' =>
      if p c then
        if in_run then sub_runs p true s'
        else String "_" (sub_runs p true s')
      else String c (sub_runs p false s')
  end.

(** [re.sub(r'^c\s*-\s*', '', s)]. *)
Definition drop_c_dash (s : string) : string :=
  match s with
  | String "c" rest =>
      match lstrip is_space rest with
      | String "-" rest' => lstrip is_space rest'
      | _ => s
      end
  | _ => s
  end.

End Py.

(* ===================================================================== *)
(** ** The dealer record shared by the two scripts (the JSON file format) *)
(* ===================================================================== *)

(** The address object.  Its fields are text or [null]; a ZIP that is [None]
    stands for a missing key as well as for [null]. *)
Record Address := mkAddress {
  street : option string;
  city : option string;
  state : option string;
  zip : option string
}.

(** [coverage_radius_miles] is not a key of the Importer's dictionaries: it is
    [None] until the Expander adds it. *)
Record Dealer := mkDealer {
  dealer_id : string;
  dealer_name : string;
  status : string;
  primary_contact_name : option string;
  primary_contact_email : option string;
  primary_phone : option string;
  address : Address;
  coverage_zips : list string;
  priority_weight : Z;
  lead_delivery_method : string;
  is_top50 : bool;
  notes : option string;
  coverage_radius_miles : option Z
}.

(** [d['dealer_id'] = v], [d['coverage_zips'] = v] and
    [d['coverage_radius_miles'] = v]. *)
Definition set_dealer_id (v : string) (d : Dealer) : Dealer :=
  mkDealer v (dealer_name d) (status d) (primary_contact_name d)
    (primary_contact_email d) (primary_phone d) (address d) (coverage_zips d)
    (priority_weight d) (lead_delivery_method d) (is_top50 d) (notes d)
    (coverage_radius_miles d).

Definition set_coverage_zips (v : list string) (d : Dealer) : Dealer :=
  mkDealer (dealer_id d) (dealer_name d) (status d) (primary_contact_name d)
    (primary_contact_email d) (primary_phone d) (address d) v
    (priority_weight d) (lead_delivery_method d) (is_top50 d) (notes d)
    (coverage_radius_miles d).

Definition set_coverage_radius_miles (v : Z) (d : Dealer) : Dealer :=
  mkDealer (dealer_id d) (dealer_name d) (status d) (primary_contact_name d)
    (primary_contact_email d) (primary_phone d) (address d) (coverage_zips d)
    (priority_weight d) (lead_delivery_method d) (is_top50 d) (notes d)
    (Some v).

(* ===================================================================== *)
(** ** process-dealer-excel.py *)
(* ===================================================================== *)

Module Importer.

(** A spreadsheet cell of the ZIP column as pandas hands it over: missing,
    a float (every finite float is a rational), an integer, or text. *)
Inductive cell :=
| NaN
| Float (q : Q)
| Int (z : Z)
| Str (s : string).

(** One row, in the fixed column order.  The text columns hold text or
    nothing. *)
Record row := mkRow {
  col_dealer_name : option string;
  col_contact_name : option string;
  col_notes : option string;
  col_phone : option string;
  col_address : option string;
  col_city : option string;
  col_state : option string;
  col_zip : cell;
  col_email : option string;
  col_email2 : option string;
  col_extra : option string
}.

(** [pd.notna]. *)
Definition notna (c : cell) : bool :=
  match c with NaN => false | _ => true end.

(** [int(x)] for a float: truncation towards zero. *)
Definition int_of_float (q : Q) : Z := Z.quot (Qnum q) (Zpos (Qden q)).

Definition clean_phone (phone_str : option string) : option string :=
  match phone_str with
  | None => None
  | Some p =>
      let first := Py.strip (Py.first_line p) in
      let first := Py.drop_c_dash first in
      if Py.is_empty first then None else Some first
  end.

Definition clean_email (email_str : option string) : option string :=
  match email_str with
  | None => None
  | Some e =>
      let first := Py.strip (Py.first_line e) in
      if negb (Py.is_empty first) && Py.contains "@" first
      then Some (Py.lower first) else None
  end.

Definition clean_state (state : option string) : option string :=
  match state with
  | None => None
  | Some s => Some (Py.strip (Py.upper s))
  end.

Definition clean_zip (zip_val : cell) : option string :=
  match zip_val with
  | NaN => None
  | _ =>
      let zip_str :=
        match zip_val with
        | Float q => Py.str_of_int (int_of_float q)
        | Int z => Py.str_of_int z
        | Str s => s
        | NaN => EmptyString
        end in
      Some (if Py.isdigit zip_str then Py.zfill 5 zip_str else zip_str)
  end.

Definition generate_dealer_id (name : string) : string :=
  let clean :=
    Py.sub_runs (fun c => negb (Py.is_alnum c)) false (Py.strip (Py.lower name)) in
  let clean := Py.strip_underscores (Py.sub_runs Py.is_underscore false clean) in
  Py.take 50 clean.

(** [set(df_top50['dealer_name'].str.lower().str.strip())]; a missing name
    stays missing and equals no string. *)
Definition top50_names (df_top50 : list row) : gset string :=
  list_to_set
    (omap (fun r => option_map (fun n => Py.strip (Py.lower n)) (col_dealer_name r))
          df_top50).

(** The body of the loop over the rows of the full roster. *)
Definition make_dealer (top50 : gset string) (r : row) : Dealer :=
  let name :=
    match col_dealer_name r with
    | Some n => Py.strip n
    | None => "Unknown"
    end in
  let is_top50 := bool_decide (Py.strip (Py.lower name) ∈ top50) in
  {| dealer_id := generate_dealer_id name;
     dealer_name := name;
     status := "active";
     primary_contact_name :=
       option_map (fun c => Py.strip (Py.first_line c)) (col_contact_name r);
     primary_contact_email := clean_email (col_email r);
     primary_phone := clean_phone (col_phone r);
     address :=
       {| street := option_map Py.strip (col_address r);
          city := option_map Py.strip (col_city r);
          state := clean_state (col_state r);
          zip := clean_zip (col_zip r) |};
     coverage_zips :=
       if notna (col_zip r)
       then match clean_zip (col_zip r) with Some z => [z] | None => [] end
       else [];
     priority_weight := if is_top50 then 100 else 50;
     lead_delivery_method := "email";
     is_top50 := is_top50;
     notes := option_map Py.strip (col_notes r);
     coverage_radius_miles := None |}.

(** [ids.count(x)]. *)
Definition count (ids : list string) (x : string) : nat :=
  count_occ string_dec ids x.

(** The loop that renames the second and later holders of an identifier;
    [seen] is the dictionary of the source. *)
Fixpoint rename_duplicates (ids : list string) (seen : gmap string nat)
    (dealers : list Dealer) : list Dealer :=
  match dealers with
  | [] => []
  | d :: rest =>
      let base_id := dealer_id d in
      if (1 <? count ids base_id)%nat then
        let n := (default 0%nat (seen !! base_id) + 1)%nat in
        let seen' := <[base_id := n]> seen in
        let d' :=
          if (1 <? n)%nat
          then set_dealer_id (base_id ++ "_" ++ Py.str_of_int (Z.of_nat n)) d
          else d in
        d' :: rename_duplicates ids seen' rest
      else d :: rename_duplicates ids seen rest
  end.

Definition handle_duplicate_ids (dealers : list Dealer) : list Dealer :=
  let ids := map dealer_id dealers in
  let duplicates : gset string :=
    list_to_set (List.filter (fun x => (1 <? count ids x)%nat) ids) in
  if bool_decide (duplicates = ∅) then dealers
  else rename_duplicates ids ∅ dealers.

(** [process_excel], from the two sheets to the returned array. *)
Definition process_excel (df_112 df_top50 : list row) : list Dealer :=
  handle_duplicate_ids (map (make_dealer (top50_names df_top50)) df_112).

End Importer.

(* ===================================================================== *)
(** ** expand-dealer-coverage.py *)
(* ===================================================================== *)

(** The order of [sorted] on strings: code point by code point. *)
Module StringOrder <: TotalLeBool.
Definition t := string.
Definition leb := String.leb.
Definition leb_total : forall s1 s2 : t, leb s1 s2 = true \/ leb s2 s1 = true :=
  String.leb_total.
End StringOrder.

Module StringSort := Sort StringOrder.

Module Expander.

Local Open Scope R_scope.

Definition DEFAULT_RADIUS_MILES : Z := 50.

(** [np.radians]. *)
Definition radians (x : R) : R := x * PI / 180.

(** [np.arctan2 y x], the angle of the point [(x, y)] in [(-PI, PI]]. *)
Definition arctan2 (y x : R) : R :=
  if Rlt_dec 0 x then atan (y / x)
  else if Rlt_dec x 0 then
    if Rle_dec 0 y then atan (y / x) + PI else atan (y / x) - PI
  else if Rlt_dec 0 y then PI / 2
  else if Rlt_dec y 0 then - PI / 2
  else 0.

(** The computation of [haversine_vec] for one element of the arrays. *)
Definition haversine (lat1 lon1 lat lon : R) : R :=
  let R_earth := 3959 in
  let lat1_rad := radians lat1 in
  let lats_rad := radians lat in
  let dlat := radians (lat - lat1) in
  let dlon := radians (lon - lon1) in
  let a := sin (dlat / 2) ^ 2 + cos lat1_rad * cos lats_rad * sin (dlon / 2) ^ 2 in
  let c := 2 * arctan2 (sqrt a) (sqrt (1 - a)) in
  R_earth * c.

Definition haversine_vec (lat1 lon1 : R) (lats lons : list R) : list R :=
  map (fun p => haversine lat1 lon1 (fst p) (snd p)) (combine lats lons).

(** One entry of the mask [distances <= radius_miles]. *)
Definition le_radius (radius_miles : Z) (distance : R) : bool :=
  if Rle_dec distance (IZR radius_miles) then true else false.

(** A row of the postal-code data frame. *)
Record geo_row := mkGeoRow {
  postal_code : string;
  latitude : option R;
  longitude : option R
}.

(** The dictionary [zip_coords], in insertion order. *)
Definition coords : Type := R * R.
Definition dict : Type := list (string * coords).

Fixpoint dict_get (k : string) (d : dict) : option coords :=
  match d with
  | [] => None
  | (k', v) :: d' => if String.eqb k k' then Some v else dict_get k d'
  end.

(** [d[k] = v]: a known key keeps its place, a new key goes last. *)
Fixpoint dict_set (k : string) (v : coords) (d : dict) : dict :=
  match d with
  | [] => [(k, v)]
  | (k', v') :: d' =>
      if String.eqb k k' then (k, v) :: d' else (k', v') :: dict_set k v d'
  end.

Definition dict_keys (d : dict) : list string := map fst d.

(** [d[k]] where the key is known to be present. *)
Definition dict_item (k : string) (d : dict) : coords :=
  default (0, 0) (dict_get k d).

(** The rows with both coordinates, then the loop filling [zip_coords]. *)
Definition valid_rows (data : list geo_row) : list (string * coords) :=
  omap (fun row =>
          match latitude row, longitude row with
          | Some lat, Some lon => Some (postal_code row, (lat, lon))
          | _, _ => None
          end) data.

Definition load_zip_coords (data : list geo_row) : dict :=
  fold_left (fun zip_coords row => dict_set (Py.zfill 5 (fst row)) (snd row) zip_coords)
            (valid_rows data) [].

Record Stats := mkStats {
  expanded : nat;
  skipped_no_zip : nat;
  skipped_not_found : nat;
  total_zips : nat;
  min_coverage : option nat;   (* [None] is [float('inf')] *)
  max_coverage : nat
}.

Definition initial_stats : Stats := mkStats 0 0 0 0 None 0.

(** The clean-up of the dealer's ZIP before the lookup. *)
Definition normalize_zip (dealer_zip : string) : string :=
  let dealer_zip := Py.strip dealer_zip in
  let dealer_zip :=
    if negb (Py.isdigit dealer_zip) then Py.keep_chars Py.is_digit dealer_zip
    else dealer_zip in
  Py.take 5 (Py.zfill 5 dealer_zip).

(** [sorted([all_zip_list[j] for j in range(len(all_zip_list)) if mask[j]])]. *)
Definition nearby (all_zip_list : list string) (mask : list bool) : list string :=
  StringSort.sort (map fst (List.filter snd (combine all_zip_list mask))).

(** The body of the loop over the dealers. *)
Definition expand_dealer (radius_miles : Z) (zip_coords : dict)
    (all_zip_list : list string) (all_lats all_lons : list R)
    (stats : Stats) (dealer : Dealer) : Stats * Dealer :=
  match zip (address dealer) with
  | None | Some EmptyString =>
      (mkStats (expanded stats) (skipped_no_zip stats + 1) (skipped_not_found stats)
         (total_zips stats) (min_coverage stats) (max_coverage stats),
       set_coverage_zips [] dealer)
  | Some dealer_zip =>
      let dealer_zip := normalize_zip dealer_zip in
      match dict_get dealer_zip zip_coords with
      | None =>
          (mkStats (expanded stats) (skipped_no_zip stats)
             (skipped_not_found stats + 1) (total_zips stats)
             (min_coverage stats) (max_coverage stats),
           set_coverage_zips [dealer_zip] dealer)
      | Some (center_lat, center_lon) =>
          let distances := haversine_vec center_lat center_lon all_lats all_lons in
          let mask := map (le_radius radius_miles) distances in
          let nearby_zips := nearby all_zip_list mask in
          let dealer :=
            set_coverage_radius_miles radius_miles
              (set_coverage_zips nearby_zips dealer) in
          let coverage_count := length nearby_zips in
          (mkStats (expanded stats + 1) (skipped_no_zip stats)
             (skipped_not_found stats) (total_zips stats + coverage_count)
             (Some (match min_coverage stats with
                    | None => coverage_count
                    | Some m => Nat.min m coverage_count
                    end))
             (Nat.max (max_coverage stats) coverage_count),
           dealer)
      end
  end.

(** [main], from the radius, the postal-code data and the loaded dealers to
    the array that is written out and the counters that are printed. *)
Definition main (radius_miles : Z) (data : list geo_row) (dealers : list Dealer)
    : list Dealer * Stats :=
  let zip_coords := load_zip_coords data in
  let all_zip_list := dict_keys zip_coords in
  let all_lats := map (fun z => fst (dict_item z zip_coords)) all_zip_list in
  let all_lons := map (fun z => snd (dict_item z zip_coords)) all_zip_list in
  fold_left
    (fun acc dealer =>
       let '(stats, dealer') :=
         expand_dealer radius_miles zip_coords all_zip_list all_lats all_lons
           (snd acc) dealer in
       (fst acc ++ [dealer'], stats))
    dealers ([], initial_stats).

(** The record written out for one dealer: the loop body under the tables
    that [main] builds.  The counters do not influence it. *)
Definition expand_record (radius_miles : Z) (data : list geo_row)
    (dealer : Dealer) : Dealer :=
  let zip_coords := load_zip_coords data in
  let all_zip_list := dict_keys zip_coords in
  let all_lats := map (fun z => fst (dict_item z zip_coords)) all_zip_list in
  let all_lons := map (fun z => snd (dict_item z zip_coords)) all_zip_list in
  snd (expand_dealer radius_miles zip_coords all_zip_list all_lats all_lons
         initial_stats dealer).

(** The distance from the centre [c] to the point [c']. *)
Definition distance (c c' : coords) : R :=
  haversine (fst c) (snd c) (fst c') (snd c').

(** The test the mask applies to the key [z] for a dealer centred at [c]. *)
Definition within (radius_miles : Z) (zip_coords : dict) (c : coords)
    (z : string) : bool :=
  le_radius radius_miles (distance c (dict_item z zip_coords)).

End Expander.

(* ===================================================================== *)
(** ** Vocabulary of the specification *)
(* ===================================================================== *)

Module Spec.

Local Open Scope R_scope.

(** A normalized ZIP code: exactly five digit characters. *)
Definition is_zip5 (s : string) : bool :=
  (String.length s =? 5)%nat && Py.all_chars Py.is_digit s.

(** The haversine distance as the specification words it: all four angles
    are converted to radians first, the differences are taken between the
    converted angles, and the result is [2 * R * atan2 (sqrt a) (sqrt (1 - a))]
    with [R = 3959]. *)
Definition haversine_distance (phi1 lam1 phi2 lam2 : R) : R :=
  let phi1_rad := Expander.radians phi1 in
  let lam1_rad := Expander.radians lam1 in
  let phi2_rad := Expander.radians phi2 in
  let lam2_rad := Expander.radians lam2 in
  let dphi := phi2_rad - phi1_rad in
  let dlam := lam2_rad - lam1_rad in
  let a := Rsqr (sin (dphi / 2)) + cos phi1_rad * cos phi2_rad * Rsqr (sin (dlam / 2)) in
  2 * 3959 * Expander.arctan2 (sqrt a) (sqrt (1 - a)).

(** The shape required of a dealer identifier: lowercase letters, digits
    and underscores only, no two underscores in a row, no underscore at
    either end, at most 50 characters. *)
Definition id_char (c : ascii) : bool :=
  Py.is_lower c || Py.is_digit c || Py.is_underscore c.

Definition leading_underscore (s : string) : bool :=
  match s with
  | EmptyString => false
  | String c _ => Py.is_underscore c
  end.

Fixpoint trailing_underscore (s : string) : bool :=
  match s with
  | EmptyString => false
  | String c s' =>
      match s' with
      | EmptyString => Py.is_underscore c
      | String _ _ => trailing_underscore s'
      end
  end.

Fixpoint double_underscore (s : string) : bool :=
  match s with
  | EmptyString => false
  | String c s' =>
      (Py.is_underscore c && leading_underscore s') || double_underscore s'
  end.

Definition well_formed_id (s : string) : bool :=
  Py.all_chars id_char s && negb (double_underscore s) &&
  negb (leading_underscore s) && negb (trailing_underscore s) &&
  (String.length s <=? 50)%nat.

(** A digit string of at most five characters: the texts that [zfill(5)]
    turns into a normalized ZIP. *)
Definition short_digits (s : string) : bool :=
  Py.isdigit s && (String.length s <=? 5)%nat.

(** The ZIP cells whose text form is such a string: the numbers whose integer
    part is between 0 and 99999, and the texts of one to five digits. *)
Definition zip_cell_in_range (c : Importer.cell) : bool :=
  match c with
  | Importer.NaN => false
  | Importer.Float q =>
      ((0 <=? Importer.int_of_float q) && (Importer.int_of_float q <=? 99999))%Z
  | Importer.Int z => ((0 <=? z) && (z <=? 99999))%Z
  | Importer.Str s => short_digits s
  end.

(** [short_digits (str n)] for the [fuel] integers from [z] on. *)
Fixpoint short_digits_from (fuel : nat) (z : Z) : bool :=
  match fuel with
  | O => true
  | S fuel' => short_digits (Py.str_of_int z) && short_digits_from fuel' (z + 1)
  end.

(** The coordinates the last row of the postal-code data gives for the key
    [k], among the rows that have both a latitude and a longitude. *)
Fixpoint last_coordinates (k : string) (data : list Expander.geo_row)
    : option Expander.coords :=
  match data with
  | [] => None
  | row :: rest =>
      match last_coordinates k rest with
      | Some c => Some c
      | None =>
          match Expander.latitude row, Expander.longitude row with
          | Some lat, Some lon =>
              if String.eqb k (Py.zfill 5 (Expander.postal_code row))
              then Some (lat, lon) else None
          | _, _ => None
          end
      end
  end.

(** The fields of a dealer record that the Expander does not assign. *)
Definition same_untouched_fields (d d' : Dealer) : Prop :=
  dealer_id d' = dealer_id d /\
  dealer_name d' = dealer_name d /\
  status d' = status d /\
  primary_contact_name d' = primary_contact_name d /\
  primary_contact_email d' = primary_contact_email d /\
  primary_phone d' = primary_phone d /\
  address d' = address d /\
  priority_weight d' = priority_weight d /\
  lead_delivery_method d' = lead_delivery_method d /\
  is_top50 d' = is_top50 d /\
  notes d' = notes d.

(** Numbering by occurrence: a record whose identifier was already seen
    [k - 1] times among the identifiers [pre] before it gets the suffix
    [_k]; a record that is the first to hold its identifier keeps it. *)
Fixpoint number_duplicates (pre : list string) (dealers : list Dealer)
    : list Dealer :=
  match dealers with
  | [] => []
  | d :: rest =>
      let k := S (Importer.count pre (dealer_id d)) in
      (if (1 <? k)%nat
       then set_dealer_id (dealer_id d ++ "_" ++ Py.str_of_int (Z.of_nat k)) d
       else d)
      :: number_duplicates (pre ++ [dealer_id d]) rest
  end.

(** Counters that fit together: without an expanded dealer there is no
    minimum and nothing is summed; otherwise the sum of the coverage sizes
    lies between the minimum and the maximum, each taken once for every
    expanded dealer. *)
Definition stats_consistent (s : Expander.Stats) : Prop :=
  match Expander.min_coverage s with
  | None =>
      Expander.expanded s = 0%nat /\ Expander.total_zips s = 0%nat /\
      Expander.max_coverage s = 0%nat
  | Some m =>
      (0 < Expander.expanded s)%nat /\
      (m * Expander.expanded s <= Expander.total_zips s)%nat /\
      (Expander.total_zips s <= Expander.max_coverage s * Expander.expanded s)%nat
  end.

(** A text whose first, respectively last, character is in the class [p]. *)
Definition starts_in (p : ascii -> bool) (s : string) : bool :=
  match s with
  | EmptyString => false
  | String c _ => p c
  end.

Fixpoint ends_in (p : ascii -> bool) (s : string) : bool :=
  match s with
  | EmptyString => false
  | String c s' =>
      match s' with
      | EmptyString => p c
      | String _ _ => ends_in p s'
      end
  end.

(** A text without line break. *)
Definition one_line (s : string) : bool :=
  Py.all_chars (fun c => negb (Ascii.eqb c "010")) s.

(** A text that is not empty, has no line break and no white space at
    either end: what the cleaning of a contact cell leaves. *)
Definition trimmed_line (s : string) : bool :=
  negb (Py.is_empty s) && one_line s &&
  negb (starts_in Py.is_space s) && negb (ends_in Py.is_space s).

End Spec.

(* ===================================================================== *)
(** ** Sample inputs *)
(* ===================================================================== *)

Module Sample.

Import Importer Expander.
Local Open Scope R_scope.

Definition text_row (name : string) (zip_cell : cell) : row :=
  mkRow (Some name) None None None None None None zip_cell None None None.

(** A reference table with two ZIPs of one town that share their
    coordinates, one ZIP far away and one row without a latitude. *)
Definition table : list geo_row :=
  [ mkGeoRow "94105" (Some 37.79) (Some (-122.39));
    mkGeoRow "94119" (Some 37.79) (Some (-122.39));
    mkGeoRow "501" (Some 40.81) (Some (-73.04));
    mkGeoRow "99950" None (Some (-131.5)) ].

(** Two dealers of the same name and a third whose name yields the
    identifier the second one is renamed to. *)
Definition roster : list row :=
  [ text_row "A" (Float (94105 # 1));
    text_row "A" (Int 501);
    text_row "A 2" (Str "ABC") ].

(** A roster of one dealer whose ZIP is in [table]. *)
Definition roster1 : list row := [ text_row "Acme Motors" (Float (94105 # 1)) ].

Definition acme : Dealer := make_dealer ∅ (text_row "Acme Motors" (Float (94105 # 1))).

(** A name of 51 characters whose 50th character is a blank. *)
Definition long_name : string :=
  "aaaaaaaaaaaaaaaaaaaaaaaaaaaaaaaaaaaaaaaaaaaaaaaaa b".

End Sample.

(* ===================================================================== *)
(** ** Facts about the string primitives *)
(* ===================================================================== *)

Section StringFacts.

Import Py.

Lemma app_cons (c : ascii) (s1 s2 : string) :
  (String c s1 ++ s2)%string = String c (s1 ++ s2)%string.
Proof. reflexivity. Qed.

Lemma app_empty_l (s : string) : ("" ++ s)%string = s.
Proof. reflexivity. Qed.

Lemma app_empty_r (s : string) : (s ++ "")%string = s.
Proof.
  induction s as [|c s IH]; [reflexivity|]. now rewrite app_cons, IH.
Qed.

Lemma digit_not_space (c : ascii) : is_digit c = true -> is_space c = false.
Proof. destruct c as [[] [] [] [] [] [] [] []]; vm_compute; congruence. Qed.

Lemma digit_not_sign (c : ascii) :
  is_digit c = true -> Ascii.eqb c "+" || Ascii.eqb c "-" = false.
Proof. destruct c as [[] [] [] [] [] [] [] []]; vm_compute; congruence. Qed.

Lemma all_chars_impl (p q : ascii -> bool) (s : string) :
  (forall c, p c = true -> q c = true) ->
  all_chars p s = true -> all_chars q s = true.
Proof.
  intros Hpq. induction s as [|c s IH]; simpl; [reflexivity|].
  rewrite !andb_true_iff. intros [Hc Hs]. split; auto.
Qed.

Lemma all_chars_app (p : ascii -> bool) (s1 s2 : string) :
  all_chars p (s1 ++ s2) = all_chars p s1 && all_chars p s2.
Proof.
  induction s1 as [|c s1 IH]; [reflexivity|].
  rewrite app_cons. simpl. rewrite IH. apply andb_assoc.
Qed.

Lemma length_app (s1 s2 : string) :
  String.length (s1 ++ s2) = (String.length s1 + String.length s2)%nat.
Proof.
  induction s1 as [|c s1 IH]; [reflexivity|].
  rewrite app_cons. simpl. now rewrite IH.
Qed.

Lemma length_zeros (n : nat) : String.length (zeros n) = n.
Proof. induction n as [|n IH]; simpl; [reflexivity|]. now rewrite IH. Qed.

Lemma all_chars_zeros (n : nat) : all_chars is_digit (zeros n) = true.
Proof. induction n as [|n IH]; simpl; [reflexivity|]. exact IH. Qed.

Lemma lstrip_none (p : ascii -> bool) (s : string) :
  all_chars (fun c => negb (p c)) s = true -> lstrip p s = s.
Proof.
  destruct s as [|c s]; simpl; [reflexivity|].
  rewrite andb_true_iff, negb_true_iff. intros [-> _]. reflexivity.
Qed.

Lemma rstrip_none (p : ascii -> bool) (s : string) :
  all_chars (fun c => negb (p c)) s = true -> rstrip p s = s.
Proof.
  induction s as [|c s IH]; simpl; [reflexivity|].
  rewrite andb_true_iff, negb_true_iff. intros [-> Hs].
  rewrite (IH Hs). reflexivity.
Qed.

Lemma strip_digits (s : string) : all_chars is_digit s = true -> strip s = s.
Proof.
  intros Hs. unfold strip, strip_by.
  assert (Hn : all_chars (fun c => negb (is_space c)) s = true).
  { revert Hs. apply all_chars_impl. intros c Hc.
    now rewrite (digit_not_space c Hc). }
  now rewrite (lstrip_none _ _ Hn), (rstrip_none _ _ Hn).
Qed.

Lemma all_chars_keep (p : ascii -> bool) (s : string) :
  all_chars p (keep_chars p s) = true.
Proof.
  induction s as [|c s IH]; simpl; [reflexivity|].
  destruct (p c) eqn:Hc; simpl; [now rewrite Hc|exact IH].
Qed.

Lemma take_all (n : nat) (s : string) :
  (String.length s <= n)%nat -> take n s = s.
Proof.
  revert n. induction s as [|c s IH]; intros [|n] Hn; simpl in *;
    try reflexivity; [lia|].
  rewrite IH; [reflexivity|lia].
Qed.

Lemma length_take (n : nat) (s : string) :
  String.length (take n s) = Nat.min n (String.length s).
Proof.
  revert s. induction n as [|n IH]; intros [|c s]; simpl; try reflexivity.
  now rewrite IH.
Qed.

Lemma all_chars_take (p : ascii -> bool) (n : nat) (s : string) :
  all_chars p s = true -> all_chars p (take n s) = true.
Proof.
  revert s. induction n as [|n IH]; intros [|c s]; simpl; try reflexivity.
  rewrite !andb_true_iff. intros [Hc Hs]. auto.
Qed.

Lemma zfill_digits (w : nat) (s : string) :
  all_chars is_digit s = true -> zfill w s = (zeros (w - String.length s) ++ s)%string.
Proof.
  unfold zfill. destruct s as [|c s]; simpl.
  - intros _. now rewrite app_empty_r.
  - rewrite andb_true_iff. intros [Hc _].
    now rewrite (digit_not_sign c Hc).
Qed.

Lemma isdigit_all (s : string) : isdigit s = true -> all_chars is_digit s = true.
Proof. unfold isdigit. rewrite andb_true_iff. tauto. Qed.

Lemma is_zip5_spec (s : string) :
  Spec.is_zip5 s = true <-> String.length s = 5%nat /\ all_chars is_digit s = true.
Proof.
  unfold Spec.is_zip5. rewrite andb_true_iff, Nat.eqb_eq. tauto.
Qed.

(** Padding a digit string to five characters and cutting it at five gives
    a normalized ZIP. *)
Lemma zfill_take_zip5 (s : string) :
  all_chars is_digit s = true -> Spec.is_zip5 (take 5 (zfill 5 s)) = true.
Proof.
  intros Hs. rewrite (zfill_digits 5 s Hs). apply is_zip5_spec. split.
  - rewrite length_take, length_app, length_zeros. lia.
  - apply all_chars_take. rewrite all_chars_app, all_chars_zeros. exact Hs.
Qed.

Lemma zfill_short_zip5 (s : string) :
  all_chars is_digit s = true -> (String.length s <= 5)%nat ->
  Spec.is_zip5 (zfill 5 s) = true.
Proof.
  intros Hs Hl. rewrite (zfill_digits 5 s Hs). apply is_zip5_spec. split.
  - rewrite length_app, length_zeros. lia.
  - rewrite all_chars_app, all_chars_zeros. exact Hs.
Qed.

End StringFacts.

(* ===================================================================== *)
(** ** ZIP normalization in the Expander *)
(* ===================================================================== *)

Lemma normalize_zip_is_zip5 (s : string) :
  Spec.is_zip5 (Expander.normalize_zip s) = true.
Proof.
  unfold Expander.normalize_zip. apply zfill_take_zip5.
  destruct (Py.isdigit (Py.strip s)) eqn:Hd; simpl.
  - now apply isdigit_all.
  - apply all_chars_keep.
Qed.

Lemma normalize_zip_fixed (s : string) :
  Spec.is_zip5 s = true -> Expander.normalize_zip s = s.
Proof.
  intros Hs. apply is_zip5_spec in Hs as [Hlen Hdig].
  unfold Expander.normalize_zip. rewrite (strip_digits s Hdig).
  assert (Hd : Py.isdigit s = true).
  { unfold Py.isdigit. rewrite Hdig. destruct s; [discriminate Hlen|reflexivity]. }
  rewrite Hd. simpl negb. cbv iota.
  rewrite (zfill_digits 5 s Hdig), Hlen. simpl Py.zeros. rewrite app_empty_l.
  apply take_all. lia.
Qed.

(** Normalization is idempotent on every input, since its results are
    normalized. *)
Lemma normalize_zip_twice (s : string) :
  Expander.normalize_zip (Expander.normalize_zip s) = Expander.normalize_zip s.
Proof. apply normalize_zip_fixed, normalize_zip_is_zip5. Qed.

(** C8. Normalizing a ZIP that is already normalized (exactly five digit
    characters) returns it unchanged: strip, the digit test, the padding and
    the cut all leave it as it is. *)
Theorem normalize_zip_idempotent (s : string) :
  Spec.is_zip5 s = true -> Expander.normalize_zip s = s.
Proof. exact (normalize_zip_fixed s). Qed.

Lemma normalize_zip_idempotent_witness :
  Spec.is_zip5 "94105" = true /\ Expander.normalize_zip "94105" = "94105".
Proof.
  split; [reflexivity | apply (normalize_zip_idempotent "94105"); reflexivity].
Defined.

(* ===================================================================== *)
(** ** The reference table and the radius filter *)
(* ===================================================================== *)

Section TableFacts.

Import Expander.

Lemma dict_get_keys (k : string) (d : dict) :
  List.In k (dict_keys d) <-> exists v, dict_get k d = Some v.
Proof.
  induction d as [|[k' v'] d IH]; simpl.
  - split; [tauto | intros [v Hv]; discriminate].
  - destruct (String.eqb k k') eqn:E.
    + apply String.eqb_eq in E. subst k'. split; eauto.
    + apply String.eqb_neq in E. rewrite IH. split.
      * intros [Hk | Hk]; [congruence | exact Hk].
      * intros Hk. right. exact Hk.
Qed.

Lemma dict_keys_set (k : string) (v : coords) (d : dict) :
  dict_keys (dict_set k v d) =
    match dict_get k d with
    | Some _ => dict_keys d
    | None => dict_keys d ++ [k]
    end.
Proof.
  induction d as [|[k' v'] d IH]; simpl; [reflexivity|].
  destruct (String.eqb k k') eqn:E; simpl.
  - apply String.eqb_eq in E. now subst k'.
  - rewrite IH. now destruct (dict_get k d).
Qed.

Lemma dict_set_NoDup (k : string) (v : coords) (d : dict) :
  List.NoDup (dict_keys d) -> List.NoDup (dict_keys (dict_set k v d)).
Proof.
  intros Hd. rewrite dict_keys_set. destruct (dict_get k d) eqn:E; [exact Hd|].
  apply NoDup_ListNoDup, NoDup_app. repeat split.
  - now apply NoDup_ListNoDup.
  - intros x Hx Hk. apply list_elem_of_In in Hx.
    apply list_elem_of_In in Hk. destruct Hk as [<- | []].
    apply dict_get_keys in Hx as [w Hw]. congruence.
  - apply NoDup_ListNoDup. repeat constructor. intros [].
Qed.

(** The keys of [zip_coords] are pairwise distinct, as in any dictionary. *)
Lemma load_zip_coords_NoDup (data : list geo_row) :
  List.NoDup (dict_keys (load_zip_coords data)).
Proof.
  unfold load_zip_coords.
  assert (H : forall rows d, List.NoDup (dict_keys d) ->
    List.NoDup (dict_keys (fold_left
      (fun zc row => dict_set (Py.zfill 5 (fst row)) (snd row) zc) rows d))).
  { induction rows as [|r rows IH]; intros d Hd; simpl; [exact Hd|].
    apply IH, dict_set_NoDup, Hd. }
  apply H. constructor.
Qed.

Lemma filter_combine_map {A : Type} (f : A -> bool) (l : list A) :
  map fst (List.filter snd (combine l (map f l))) = List.filter f l.
Proof.
  induction l as [|x l IH]; simpl; [reflexivity|].
  destruct (f x); simpl; now rewrite IH.
Qed.

Lemma haversine_vec_map {A : Type} (lat1 lon1 : R) (g h : A -> R) (l : list A) :
  haversine_vec lat1 lon1 (map g l) (map h l) =
    map (fun z => haversine lat1 lon1 (g z) (h z)) l.
Proof.
  unfold haversine_vec. induction l as [|x l IH]; simpl; [reflexivity|].
  now rewrite IH.
Qed.

Lemma sort_In (l : list string) (x : string) :
  List.In x (StringSort.sort l) <-> List.In x l.
Proof.
  split; apply Permutation_in.
  - apply Permutation_sym, StringSort.Permuted_sort.
  - apply StringSort.Permuted_sort.
Qed.

Lemma nearby_filter (radius_miles : Z) (zip_coords : dict) (c : coords) :
  let all_zip_list := dict_keys zip_coords in
  let all_lats := map (fun z => fst (dict_item z zip_coords)) all_zip_list in
  let all_lons := map (fun z => snd (dict_item z zip_coords)) all_zip_list in
  nearby all_zip_list
    (map (le_radius radius_miles)
         (haversine_vec (fst c) (snd c) all_lats all_lons)) =
  StringSort.sort (List.filter (within radius_miles zip_coords c) all_zip_list).
Proof.
  intros keys lats lons. unfold nearby, lats, lons.
  rewrite haversine_vec_map, map_map.
  now rewrite (filter_combine_map
    (fun z => le_radius radius_miles
                (haversine (fst c) (snd c) (fst (dict_item z zip_coords))
                   (snd (dict_item z zip_coords))))).
Qed.

Lemma le_radius_true (radius_miles : Z) (x : R) :
  le_radius radius_miles x = true <-> (x <= IZR radius_miles)%R.
Proof.
  unfold le_radius. destruct (Rle_dec x (IZR radius_miles)); split;
    auto; discriminate.
Qed.

Lemma within_spec (radius_miles : Z) (zip_coords : dict) (c : coords) (z : string) :
  List.In z (List.filter (within radius_miles zip_coords c) (dict_keys zip_coords))
  <-> exists c', dict_get z zip_coords = Some c' /\
                 (distance c c' <= IZR radius_miles)%R.
Proof.
  rewrite filter_In, dict_get_keys. unfold within, dict_item.
  rewrite le_radius_true. split.
  - intros [[c' Hc'] Hd]. exists c'. rewrite Hc' in Hd. auto.
  - intros [c' [Hc' Hd]]. rewrite Hc'. split; eauto.
Qed.

End TableFacts.


(* ===================================================================== *)
(** ** The loop of the Expander *)
(* ===================================================================== *)

Section ExpanderLoop.

Import Expander.

Variable radius_miles : Z.
Variable data : list geo_row.

Let zip_coords := load_zip_coords data.

Lemma expand_dealer_ignores_stats (zc : dict) (keys : list string)
    (lats lons : list R) (s1 s2 : Stats) (d : Dealer) :
  snd (expand_dealer radius_miles zc keys lats lons s1 d) =
  snd (expand_dealer radius_miles zc keys lats lons s2 d).
Proof.
  unfold expand_dealer.
  destruct (zip (address d)) as [[|ch z]|]; try reflexivity.
  destruct (dict_get _ zc) as [[lat lon]|]; reflexivity.
Qed.

(** The array written by [main] holds, in the original order, the record
    the loop body produces for each dealer. *)
Lemma main_records (dealers : list Dealer) :
  fst (main radius_miles data dealers) = map (expand_record radius_miles data) dealers.
Proof.
  unfold main.
  set (step := fun (acc : list Dealer * Stats) (dealer : Dealer) => _).
  assert (H : forall ds out stats,
    fst (fold_left step ds (out, stats)) =
    out ++ map (expand_record radius_miles data) ds).
  { induction ds as [|d ds IH]; intros out stats; simpl.
    - now rewrite app_nil_r.
    - unfold step at 2. simpl.
      destruct (expand_dealer _ _ _ _ _ stats d) as [stats' d'] eqn:E.
      rewrite IH, <- app_assoc. simpl. do 2 f_equal.
      unfold expand_record.
      rewrite (expand_dealer_ignores_stats _ _ _ _ initial_stats stats d), E.
      reflexivity. }
  apply (H dealers [] initial_stats).
Qed.

Lemma expand_record_no_zip (d : Dealer) :
  zip (address d) = None \/ zip (address d) = Some EmptyString ->
  expand_record radius_miles data d = set_coverage_zips [] d.
Proof.
  unfold expand_record, expand_dealer. intros [-> | ->]; reflexivity.
Qed.

Lemma expand_record_not_found (d : Dealer) (z : string) :
  zip (address d) = Some z -> z <> EmptyString ->
  dict_get (normalize_zip z) zip_coords = None ->
  expand_record radius_miles data d = set_coverage_zips [normalize_zip z] d.
Proof.
  unfold expand_record, expand_dealer. intros -> Hz Hget.
  destruct z as [|ch z]; [congruence|].
  fold zip_coords. now rewrite Hget.
Qed.

Lemma expand_record_found (d : Dealer) (z : string) (c : coords) :
  zip (address d) = Some z -> z <> EmptyString ->
  dict_get (normalize_zip z) zip_coords = Some c ->
  expand_record radius_miles data d =
    set_coverage_radius_miles radius_miles
      (set_coverage_zips
         (StringSort.sort
            (List.filter (within radius_miles zip_coords c) (dict_keys zip_coords)))
         d).
Proof.
  unfold expand_record, expand_dealer. intros -> Hz Hget.
  destruct z as [|ch z]; [congruence|].
  fold zip_coords. rewrite Hget. destruct c as [lat lon].
  pose proof (nearby_filter radius_miles zip_coords (lat, lon)) as Hn.
  simpl in Hn. simpl. now rewrite Hn.
Qed.

(** Membership in the coverage of a dealer whose ZIP resolves to [c]. *)
Lemma coverage_found_In (d : Dealer) (z : string) (c : coords) (z' : string) :
  zip (address d) = Some z -> z <> EmptyString ->
  dict_get (normalize_zip z) zip_coords = Some c ->
  List.In z' (coverage_zips (expand_record radius_miles data d)) <->
  exists c', dict_get z' zip_coords = Some c' /\
             (distance c c' <= IZR radius_miles)%R.
Proof.
  intros Hz Hne Hget. rewrite (expand_record_found d z c Hz Hne Hget).
  simpl. rewrite sort_In. apply within_spec.
Qed.

(** Each dealer is counted under exactly one of the three outcomes. *)
Lemma expand_dealer_counts (zc : dict) (keys : list string)
    (lats lons : list R) (s : Stats) (d : Dealer) :
  let s' := fst (expand_dealer radius_miles zc keys lats lons s d) in
  (expanded s' + skipped_no_zip s' + skipped_not_found s' =
   expanded s + skipped_no_zip s + skipped_not_found s + 1)%nat.
Proof.
  unfold expand_dealer.
  destruct (zip (address d)) as [[|ch z]|]; simpl; try lia.
  destruct (dict_get _ zc) as [[lat lon]|]; simpl; lia.
Qed.

Lemma main_counts (dealers : list Dealer) :
  let s := snd (main radius_miles data dealers) in
  (expanded s + skipped_no_zip s + skipped_not_found s = length dealers)%nat.
Proof.
  unfold main.
  set (step := fun (acc : list Dealer * Stats) (dealer : Dealer) => _).
  assert (H : forall ds out stats,
    let s := snd (fold_left step ds (out, stats)) in
    (expanded s + skipped_no_zip s + skipped_not_found s =
     expanded stats + skipped_no_zip stats + skipped_not_found stats + length ds)%nat).
  { induction ds as [|d ds IH]; intros out stats; simpl; [lia|].
    pose proof (expand_dealer_counts (load_zip_coords data)
      (dict_keys (load_zip_coords data))
      (map (fun z => fst (dict_item z (load_zip_coords data)))
           (dict_keys (load_zip_coords data)))
      (map (fun z => snd (dict_item z (load_zip_coords data)))
           (dict_keys (load_zip_coords data))) stats d) as Hc.
    destruct (expand_dealer _ _ _ _ _ stats d) as [stats' d'] eqn:E.
    assert (Es : step (out, stats) d = (out ++ [d'], stats')).
    { unfold step. simpl. now rewrite E. }
    rewrite Es. simpl in Hc.
    specialize (IH (out ++ [d']) stats'). simpl in IH. lia. }
  apply (H dealers [] initial_stats).
Qed.

(** The three shapes of the record written for a dealer. *)
Lemma expander_cases (d : Dealer) :
  expand_record radius_miles data d = set_coverage_zips [] d \/
  (exists z, expand_record radius_miles data d = set_coverage_zips [normalize_zip z] d) \/
  (exists l,
     expand_record radius_miles data d =
       set_coverage_radius_miles radius_miles (set_coverage_zips l d) /\
     forall k, List.In k l -> List.In k (dict_keys zip_coords)).
Proof.
  destruct (zip (address d)) as [z|] eqn:Hz.
  - destruct z as [|ch z].
    + left. apply expand_record_no_zip. auto.
    + assert (Hne : String ch z <> EmptyString) by discriminate.
      destruct (dict_get (normalize_zip (String ch z)) zip_coords) as [c|] eqn:Hget.
      * right. right. eexists. split.
        -- apply (expand_record_found d _ c Hz Hne Hget).
        -- intros k Hk. apply sort_In, filter_In in Hk. tauto.
      * right. left. exists (String ch z).
        apply (expand_record_not_found d _ Hz Hne Hget).
  - left. apply expand_record_no_zip. auto.
Qed.

End ExpanderLoop.

(* ===================================================================== *)
(** ** The haversine distance *)
(* ===================================================================== *)

Section Haversine.

Import Expander.
Local Open Scope R_scope.

Lemma radians_0 : radians 0 = 0.
Proof. unfold radians. field. Qed.

Lemma radians_minus (x y : R) : radians (x - y) = radians x - radians y.
Proof. unfold radians. field. Qed.

Lemma arctan2_0_1 : arctan2 0 1 = 0.
Proof.
  unfold arctan2. destruct (Rlt_dec 0 1) as [_|H]; [|exfalso; apply H; lra].
  replace (0 / 1) with 0 by field. apply atan_0.
Qed.

(** A point is at distance 0 from itself. *)
Lemma haversine_self (lat lon : R) : haversine lat lon lat lon = 0.
Proof.
  unfold haversine. cbv zeta.
  replace (lat - lat) with 0 by ring. replace (lon - lon) with 0 by ring.
  rewrite radians_0. replace (0 / 2) with 0 by field. rewrite sin_0.
  replace (0 ^ 2 + cos (radians lat) * cos (radians lat) * 0 ^ 2) with 0 by ring.
  rewrite sqrt_0. replace (1 - 0) with 1 by ring. rewrite sqrt_1, arctan2_0_1.
  ring.
Qed.

Lemma distance_self (c : coords) : distance c c = 0.
Proof. apply haversine_self. Qed.

(** The two computations differ in where the conversion to radians is
    applied and in the order of the last product. *)
Lemma haversine_unfolded (lat1 lon1 lat lon : R) :
  haversine lat1 lon1 lat lon = Spec.haversine_distance lat1 lon1 lat lon.
Proof.
  unfold haversine, Spec.haversine_distance. cbv zeta.
  rewrite !radians_minus. unfold Rsqr. simpl pow. rewrite !Rmult_1_r.
  set (a := sin _ * sin _ + _). ring.
Qed.

(** C2. The distance the Expander computes for a centre and a candidate is
    the haversine formula of the specification: angles in radians,
    [a = sin^2 (dphi / 2) + cos phi1 * cos phi2 * sin^2 (dlam / 2)] and
    [2 * R * atan2 (sqrt a) (sqrt (1 - a))] with [R = 3959], over the real
    numbers.  The source converts the differences of the angles in degrees,
    which is the difference of the converted angles. *)
Theorem haversine_is_spec_formula (lat1 lon1 lat lon : R) :
  haversine lat1 lon1 lat lon = Spec.haversine_distance lat1 lon1 lat lon.
Proof. apply haversine_unfolded. Qed.

(** The vectorized function is the per-pair function on every element. *)
Lemma haversine_vec_is_spec_formula (lat1 lon1 : R) (lats lons : list R) :
  haversine_vec lat1 lon1 lats lons =
  map (fun p => Spec.haversine_distance lat1 lon1 (fst p) (snd p)) (combine lats lons).
Proof.
  unfold haversine_vec. apply map_ext. intros p. apply haversine_unfolded.
Qed.

End Haversine.

(* ===================================================================== *)
(** ** Properties of the coverage the Expander assigns *)
(* ===================================================================== *)

Section Coverage.

Import Expander.

(** C1. When the dealer's normalized ZIP is in the reference table, with
    coordinates [c], every ZIP of the assigned [coverage_zips] is a
    reference ZIP whose distance from [c] is at most the radius, and for a
    radius of at least 0 the dealer's own normalized ZIP is one of them. *)
Theorem coverage_within_radius (radius_miles : Z) (data : list geo_row)
    (d : Dealer) (z : string) (c : coords) :
  zip (address d) = Some z -> z <> EmptyString ->
  dict_get (normalize_zip z) (load_zip_coords data) = Some c ->
  (0 <= radius_miles)%Z ->
  (forall z', List.In z' (coverage_zips (expand_record radius_miles data d)) ->
     exists c', dict_get z' (load_zip_coords data) = Some c' /\
                (distance c c' <= IZR radius_miles)%R) /\
  List.In (normalize_zip z) (coverage_zips (expand_record radius_miles data d)).
Proof.
  intros Hz Hne Hget Hr. split.
  - intros z' Hz'. now apply (coverage_found_In radius_miles data d z c z').
  - apply (coverage_found_In radius_miles data d z c); try assumption.
    exists c. split; [exact Hget|]. rewrite distance_self.
    now apply IZR_le.
Qed.

(** C3. For a dealer whose ZIP resolves and radii [r1 < r2], the coverage
    computed at [r1] is included in the coverage computed at [r2] over the
    same reference table. *)
Theorem coverage_monotone (r1 r2 : Z) (data : list geo_row)
    (d : Dealer) (z : string) (c : coords) :
  zip (address d) = Some z -> z <> EmptyString ->
  dict_get (normalize_zip z) (load_zip_coords data) = Some c ->
  (r1 < r2)%Z ->
  incl (coverage_zips (expand_record r1 data d))
       (coverage_zips (expand_record r2 data d)).
Proof.
  intros Hz Hne Hget Hr z'.
  rewrite (coverage_found_In r1 data d z c z' Hz Hne Hget).
  rewrite (coverage_found_In r2 data d z c z' Hz Hne Hget).
  intros [c' [Hc' Hd]]. exists c'. split; [exact Hc'|].
  apply IZR_lt in Hr. lra.
Qed.

(** C4. The three outcomes of the Expander for one record.  Without a ZIP
    (the key is missing, null or the empty text) the coverage becomes the
    empty list and the radius field is left as it was.  With a ZIP whose
    normalized form is not in the table the coverage becomes that one ZIP
    and the radius field is left as it was.  With a ZIP that is found the
    coverage becomes the sorted, duplicate-free list of exactly the
    reference ZIPs at distance at most the radius, and the radius used is
    recorded. *)
Theorem expander_outcomes (radius_miles : Z) (data : list geo_row) (d : Dealer) :
  let zip_coords := load_zip_coords data in
  let d' := expand_record radius_miles data d in
  match zip (address d) with
  | None | Some EmptyString =>
      coverage_zips d' = [] /\
      coverage_radius_miles d' = coverage_radius_miles d
  | Some z =>
      match dict_get (normalize_zip z) zip_coords with
      | None =>
          coverage_zips d' = [normalize_zip z] /\
          coverage_radius_miles d' = coverage_radius_miles d
      | Some c =>
          Sorted (fun a b => String.leb a b = true) (coverage_zips d') /\
          List.NoDup (coverage_zips d') /\
          (forall z', List.In z' (coverage_zips d') <->
             exists c', dict_get z' zip_coords = Some c' /\
                        (distance c c' <= IZR radius_miles)%R) /\
          coverage_radius_miles d' = Some radius_miles
      end
  end.
Proof.
  intros zip_coords d'.
  destruct (zip (address d)) as [z|] eqn:Hz.
  - destruct z as [|ch z].
    + subst d'. rewrite expand_record_no_zip by auto. split; reflexivity.
    + assert (Hne : String ch z <> EmptyString) by discriminate.
      destruct (dict_get _ zip_coords) as [c|] eqn:Hget.
      * subst d'. rewrite (expand_record_found _ _ d _ c Hz Hne Hget). simpl.
        repeat split.
        -- apply StringSort.Sorted_sort.
        -- eapply Permutation_NoDup; [apply StringSort.Permuted_sort|].
           apply List.NoDup_filter, load_zip_coords_NoDup.
        -- rewrite sort_In. apply within_spec.
        -- rewrite sort_In. apply within_spec.
      * subst d'. rewrite (expand_record_not_found _ _ d _ Hz Hne Hget).
        split; reflexivity.
  - subst d'. rewrite expand_record_no_zip by auto. split; reflexivity.
Qed.

End Coverage.

Lemma coverage_within_radius_witness :
  (forall z',
     List.In z' (coverage_zips (Expander.expand_record 50 Sample.table Sample.acme)) ->
     exists c', Expander.dict_get z' (Expander.load_zip_coords Sample.table) = Some c' /\
                (Expander.distance (37.79, -122.39) c' <= 50)%R) /\
  List.In "94105" (coverage_zips (Expander.expand_record 50 Sample.table Sample.acme)).
Proof.
  apply (coverage_within_radius 50 Sample.table Sample.acme "94105" (37.79, -122.39)%R);
    [reflexivity | discriminate | reflexivity | lia].
Defined.

Lemma coverage_monotone_witness :
  incl (coverage_zips (Expander.expand_record 30 Sample.table Sample.acme))
       (coverage_zips (Expander.expand_record 50 Sample.table Sample.acme)).
Proof.
  apply (coverage_monotone 30 50 Sample.table Sample.acme "94105" (37.79, -122.39)%R);
    [reflexivity | discriminate | reflexivity | lia].
Defined.

(* ===================================================================== *)
(** ** The records the Importer builds *)
(* ===================================================================== *)

Section ImporterFacts.

Import Importer.

Lemma short_digits_from_spec (fuel : nat) (z k : Z) :
  Spec.short_digits_from fuel z = true ->
  (z <= k < z + Z.of_nat fuel)%Z ->
  Spec.short_digits (Py.str_of_int k) = true.
Proof.
  revert z. induction fuel as [|fuel IH]; intros z; simpl Spec.short_digits_from.
  - intros _ Hk. lia.
  - rewrite andb_true_iff. intros [Hz Hrest] Hk.
    destruct (Z.eq_dec k z) as [->|Hne]; [exact Hz|].
    apply (IH (z + 1)%Z Hrest). lia.
Qed.

(** The decimal text of an integer between 0 and 99999 has one to five
    characters, all of them digits. *)
Lemma str_of_int_short (z : Z) :
  (0 <= z <= 99999)%Z -> Spec.short_digits (Py.str_of_int z) = true.
Proof.
  intros Hz. apply (short_digits_from_spec (Z.to_nat 100000) 0 z); [|lia].
  vm_compute. reflexivity.
Qed.

Lemma short_digits_zfill (s : string) :
  Spec.short_digits s = true -> Spec.is_zip5 (Py.zfill 5 s) = true.
Proof.
  unfold Spec.short_digits. rewrite andb_true_iff, Nat.leb_le. intros [Hd Hl].
  apply zfill_short_zip5; [now apply isdigit_all | exact Hl].
Qed.

(** The ZIP of a cell in range is cleaned to a normalized ZIP. *)
Lemma clean_zip_in_range (c : cell) :
  Spec.zip_cell_in_range c = true ->
  exists z, clean_zip c = Some z /\ Spec.is_zip5 z = true.
Proof.
  destruct c as [|q|n|s]; simpl Spec.zip_cell_in_range; [discriminate| | |].
  - rewrite andb_true_iff, !Z.leb_le. intros Hq.
    pose proof (str_of_int_short (int_of_float q) Hq) as Hs.
    exists (Py.zfill 5 (Py.str_of_int (int_of_float q))). unfold clean_zip.
    pose proof Hs as Hd. unfold Spec.short_digits in Hd.
    apply andb_true_iff in Hd as [-> _]. split; [reflexivity|].
    now apply short_digits_zfill.
  - rewrite andb_true_iff, !Z.leb_le. intros Hn.
    pose proof (str_of_int_short n Hn) as Hs.
    exists (Py.zfill 5 (Py.str_of_int n)). unfold clean_zip.
    pose proof Hs as Hd. unfold Spec.short_digits in Hd.
    apply andb_true_iff in Hd as [-> _]. split; [reflexivity|].
    now apply short_digits_zfill.
  - intros Hs. exists (Py.zfill 5 s). unfold clean_zip.
    pose proof Hs as Hd. unfold Spec.short_digits in Hd.
    apply andb_true_iff in Hd as [-> _]. split; [reflexivity|].
    now apply short_digits_zfill.
Qed.

(** Text that is not a digit string passes through unchanged. *)
Lemma clean_zip_text (s : string) :
  Py.isdigit s = false -> clean_zip (Str s) = Some s.
Proof. intros Hs. unfold clean_zip. now rewrite Hs. Qed.

Lemma set_dealer_id_same (d : Dealer) : set_dealer_id (dealer_id d) d = d.
Proof. now destruct d. Qed.

(** Renaming touches the identifier only. *)
Lemma rename_duplicates_fields (ids : list string) (dealers : list Dealer) :
  forall seen : gmap string nat,
  List.Forall2 (fun d d' => d' = set_dealer_id (dealer_id d') d)
    dealers (rename_duplicates ids seen dealers).
Proof.
  induction dealers as [|d dealers IH]; intros seen; simpl; [constructor|].
  destruct (1 <? count ids (dealer_id d))%nat.
  - constructor; [|apply IH].
    destruct (1 <? _)%nat; [reflexivity | now rewrite set_dealer_id_same].
  - constructor; [now rewrite set_dealer_id_same | apply IH].
Qed.

Lemma handle_duplicate_ids_fields (dealers : list Dealer) :
  List.Forall2 (fun d d' => d' = set_dealer_id (dealer_id d') d)
    dealers (handle_duplicate_ids dealers).
Proof.
  unfold handle_duplicate_ids. destruct (bool_decide _).
  - induction dealers as [|d dealers IH]; constructor;
      [now rewrite set_dealer_id_same | exact IH].
  - apply rename_duplicates_fields.
Qed.

(** Each record of the output comes from the row at the same position and
    differs from what the loop built for it in the identifier at most. *)
Lemma process_excel_rows (df_112 df_top50 : list row) :
  List.Forall2
    (fun r d => d = set_dealer_id (dealer_id d) (make_dealer (top50_names df_top50) r))
    df_112 (process_excel df_112 df_top50).
Proof.
  unfold process_excel.
  pose proof (handle_duplicate_ids_fields
                (map (make_dealer (top50_names df_top50)) df_112)) as H.
  remember (handle_duplicate_ids _) as out eqn:E. clear E.
  revert out H. induction df_112 as [|r rows IH]; intros out H; simpl in H.
  - inversion H. constructor.
  - inversion H as [|d d' ds ds' Hd Hds]; subst. constructor; [exact Hd|].
    apply IH, Hds.
Qed.

Lemma process_excel_In (df_112 df_top50 : list row) (d : Dealer) :
  List.In d (process_excel df_112 df_top50) ->
  exists r, List.In r df_112 /\
            d = set_dealer_id (dealer_id d) (make_dealer (top50_names df_top50) r).
Proof.
  pose proof (process_excel_rows df_112 df_top50) as H.
  induction H as [|r d' rows ds Hd _ IH]; simpl; [tauto|].
  intros [<- | Hin]; [eauto|].
  destruct (IH Hin) as [r' [Hr' Hd']]. eauto.
Qed.

(** C10. Every record the Importer returns carries the field
    [lead_delivery_method] with the value ["email"]. *)
Theorem lead_delivery_method_email (df_112 df_top50 : list row) :
  List.Forall (fun d => lead_delivery_method d = "email")
    (process_excel df_112 df_top50).
Proof.
  apply List.Forall_forall. intros d Hd.
  apply process_excel_In in Hd as [r [_ ->]]. reflexivity.
Qed.

End ImporterFacts.

(* ===================================================================== *)
(** ** Identifiers after the duplicate pass *)
(* ===================================================================== *)

(** C5. The duplicate pass does not make the identifiers pairwise distinct:
    on a roster with two dealers named "A" and one named "A 2", the second
    "A" is renamed to ["a_2"], the identifier the third dealer already has. *)
Theorem duplicate_pass_collision :
  map dealer_id (Importer.process_excel Sample.roster []) = ["a"; "a_2"; "a_2"] /\
  ~ List.NoDup (map dealer_id (Importer.process_excel Sample.roster [])).
Proof.
  assert (E : map dealer_id (Importer.process_excel Sample.roster [])
              = ["a"; "a_2"; "a_2"]) by (vm_compute; reflexivity).
  split; [exact E|]. rewrite E. intros H.
  inversion H as [|x l _ H1]; subst. inversion H1 as [|y l' Hy _]; subst.
  apply Hy. left. reflexivity.
Qed.

(* ===================================================================== *)
(** ** Five-digit coverage ZIPs *)
(* ===================================================================== *)

Section FiveDigits.

Import Importer Expander.



Lemma make_dealer_zip (top50 : gset string) (r : row) :
  zip (address (make_dealer top50 r)) = clean_zip (col_zip r).
Proof. reflexivity. Qed.


End FiveDigits.



(* ===================================================================== *)
(** ** Importer records through the Expander at radius 0 *)
(* ===================================================================== *)

Section RoundTrip.

Import Importer Expander.






End RoundTrip.



(* ===================================================================== *)
(** ** The shape of generated identifiers *)
(* ===================================================================== *)

Section Identifiers.

Import Py.

Lemma lower_char_not_upper (c : ascii) : is_upper (lower_char c) = false.
Proof. destruct c as [[] [] [] [] [] [] [] []]; vm_compute; reflexivity. Qed.

Lemma not_upper_id_char (c : ascii) :
  is_upper c = false -> negb (is_alnum c) || Spec.id_char c = true.
Proof.
  unfold is_alnum, Spec.id_char. intros ->.
  destruct (is_lower c), (is_digit c), (is_underscore c); reflexivity.
Qed.

Lemma underscore_not_alnum (c : ascii) :
  is_underscore c = true -> negb (is_alnum c) = true.
Proof. destruct c as [[] [] [] [] [] [] [] []]; vm_compute; congruence. Qed.

Lemma underscore_id_char (c : ascii) : is_underscore c = true -> Spec.id_char c = true.
Proof. unfold Spec.id_char. intros ->. now rewrite !orb_true_r. Qed.

Lemma all_chars_map (q : ascii -> bool) (f : ascii -> ascii) (s : string) :
  (forall c, q (f c) = true) -> all_chars q (map_chars f s) = true.
Proof.
  intros Hq. induction s as [|c s IH]; simpl; [reflexivity|]. now rewrite Hq, IH.
Qed.

Lemma all_chars_lstrip (q p : ascii -> bool) (s : string) :
  all_chars q s = true -> all_chars q (lstrip p s) = true.
Proof.
  induction s as [|c s IH]; simpl; [reflexivity|].
  destruct (p c); simpl; [|tauto].
  rewrite andb_true_iff. intros [_ Hs]. auto.
Qed.

Lemma all_chars_rstrip (q p : ascii -> bool) (s : string) :
  all_chars q s = true -> all_chars q (rstrip p s) = true.
Proof.
  induction s as [|c s IH]; simpl; [reflexivity|].
  rewrite andb_true_iff. intros [Hc Hs].
  destruct (p c && is_empty (rstrip p s)); simpl; [reflexivity|].
  now rewrite Hc, IH.
Qed.

Lemma all_chars_strip_by (q p : ascii -> bool) (s : string) :
  all_chars q s = true -> all_chars q (strip_by p s) = true.
Proof. intros H. now apply all_chars_rstrip, all_chars_lstrip. Qed.

(** The replacement keeps the characters outside the class and adds
    underscores. *)
Lemma all_chars_sub_runs (q p : ascii -> bool) (s : string) :
  q "_"%char = true ->
  all_chars (fun c => p c || q c) s = true ->
  forall b, all_chars q (sub_runs p b s) = true.
Proof.
  intros Hu. induction s as [|c s IH]; simpl; [reflexivity|].
  rewrite andb_true_iff. intros [Hc Hs] b.
  destruct (p c) eqn:Hp.
  - destruct b; simpl; [now apply IH|]. now rewrite Hu, IH.
  - simpl in Hc. simpl. now rewrite Hc, IH.
Qed.

(** After the replacement of the runs of a class that holds the underscore,
    no two underscores are adjacent, and none leads when a run was open. *)
Lemma sub_runs_single (p : ascii -> bool) (s : string) :
  (forall c, is_underscore c = true -> p c = true) ->
  forall b,
    Spec.double_underscore (sub_runs p b s) = false /\
    (b = true -> Spec.leading_underscore (sub_runs p b s) = false).
Proof.
  intros Hp. induction s as [|c s IH]; intros b; simpl; [split; reflexivity|].
  destruct (p c) eqn:Hc.
  - destruct b.
    + apply IH.
    + destruct (IH true) as [Hd Hl]. simpl. rewrite Hd, (Hl eq_refl).
      split; [reflexivity | discriminate].
  - assert (Hu : is_underscore c = false).
    { destruct (is_underscore c) eqn:E; [|reflexivity].
      rewrite (Hp c E) in Hc. discriminate. }
    destruct (IH false) as [Hd _]. simpl. rewrite Hu, Hd. split; reflexivity.
Qed.

Lemma double_lstrip (p : ascii -> bool) (s : string) :
  Spec.double_underscore s = false -> Spec.double_underscore (lstrip p s) = false.
Proof.
  induction s as [|c s IH]; simpl; [reflexivity|].
  destruct (p c); [|tauto].
  rewrite orb_false_iff. intros [_ Hs]. auto.
Qed.

Lemma leading_rstrip (p : ascii -> bool) (s : string) :
  Spec.leading_underscore s = false ->
  Spec.leading_underscore (rstrip p s) = false.
Proof.
  destruct s as [|c s]; simpl; [reflexivity|].
  now destruct (p c && is_empty (rstrip p s)).
Qed.

Lemma double_rstrip (p : ascii -> bool) (s : string) :
  Spec.double_underscore s = false -> Spec.double_underscore (rstrip p s) = false.
Proof.
  induction s as [|c s IH]; simpl; [reflexivity|].
  rewrite orb_false_iff, andb_false_iff. intros [Hc Hs].
  destruct (p c && is_empty (rstrip p s)); simpl; [reflexivity|].
  rewrite (IH Hs), orb_false_r. destruct Hc as [-> | Hl]; [reflexivity|].
  rewrite (leading_rstrip p s Hl). apply andb_false_r.
Qed.

Lemma leading_take (n : nat) (s : string) :
  Spec.leading_underscore s = false ->
  Spec.leading_underscore (take n s) = false.
Proof. destruct n, s; simpl; auto. Qed.

Lemma double_take (n : nat) (s : string) :
  Spec.double_underscore s = false -> Spec.double_underscore (take n s) = false.
Proof.
  revert s. induction n as [|n IH]; intros [|c s]; simpl; try reflexivity.
  rewrite !orb_false_iff, !andb_false_iff. intros [Hc Hs]. split; [|auto].
  destruct Hc as [-> | Hl]; [now left|]. right. now apply leading_take.
Qed.

Lemma leading_lstrip (s : string) :
  Spec.leading_underscore (lstrip is_underscore s) = false.
Proof.
  induction s as [|c s IH]; simpl; [reflexivity|].
  destruct (is_underscore c) eqn:E; [exact IH|]. simpl. exact E.
Qed.

Lemma trailing_rstrip (s : string) :
  Spec.trailing_underscore (rstrip is_underscore s) = false.
Proof.
  induction s as [|c s IH]; simpl; [reflexivity|].
  destruct (is_underscore c) eqn:E; simpl.
  - destruct (rstrip is_underscore s) eqn:R; simpl; [reflexivity|].
    exact IH.
  - destruct (rstrip is_underscore s) eqn:R; simpl; [exact E | exact IH].
Qed.

(** What does hold of every generated identifier: the characters, the single
    underscores, no leading underscore, the length; and an underscore at the
    end only when the identifier fills all 50 characters, that is, when the
    cut fell right behind a separator. *)
Lemma generate_dealer_id_shape (name : string) :
  let id := Importer.generate_dealer_id name in
  all_chars Spec.id_char id = true /\
  Spec.double_underscore id = false /\
  Spec.leading_underscore id = false /\
  (String.length id <= 50)%nat /\
  (Spec.trailing_underscore id = true -> String.length id = 50%nat).
Proof.
  unfold Importer.generate_dealer_id. cbv zeta.
  set (s0 := strip (lower name)).
  set (s1 := sub_runs (fun c => negb (is_alnum c)) false s0).
  set (s2 := sub_runs is_underscore false s1).
  set (s3 := strip_underscores s2).
  assert (H0 : all_chars (fun c => negb (is_upper c)) s0 = true).
  { apply all_chars_strip_by, all_chars_map. intros c.
    now rewrite lower_char_not_upper. }
  assert (H1 : all_chars Spec.id_char s1 = true).
  { apply all_chars_sub_runs; [reflexivity|]. revert H0. apply all_chars_impl.
    intros c Hc. apply not_upper_id_char. now apply negb_true_iff. }
  assert (H2 : all_chars Spec.id_char s2 = true).
  { apply all_chars_sub_runs; [reflexivity|]. revert H1. apply all_chars_impl.
    intros c ->. apply orb_true_r. }
  assert (D2 : Spec.double_underscore s2 = false).
  { apply (sub_runs_single is_underscore s1); auto. }
  assert (H3 : all_chars Spec.id_char s3 = true) by now apply all_chars_strip_by.
  assert (D3 : Spec.double_underscore s3 = false) by now apply double_rstrip, double_lstrip.
  assert (L3 : Spec.leading_underscore s3 = false) by apply leading_rstrip, leading_lstrip.
  assert (T3 : Spec.trailing_underscore s3 = false) by apply trailing_rstrip.
  repeat split.
  - now apply all_chars_take.
  - now apply double_take.
  - now apply leading_take.
  - rewrite length_take. lia.
  - intros HT. rewrite length_take.
    destruct (Nat.le_gt_cases (String.length s3) 50) as [Hle | Hgt]; [|lia].
    rewrite (take_all 50 s3 Hle), T3 in HT. discriminate HT.
Qed.

(** C6. The required shape fails for a name of 51 characters whose 50th is a
    blank: the blank becomes an underscore, nothing is stripped because a
    letter follows it, and the cut to 50 characters leaves the underscore at
    the end. *)
Theorem generate_dealer_id_trailing_underscore :
  Importer.generate_dealer_id Sample.long_name
    = "aaaaaaaaaaaaaaaaaaaaaaaaaaaaaaaaaaaaaaaaaaaaaaaaa_" /\
  Spec.trailing_underscore (Importer.generate_dealer_id Sample.long_name) = true /\
  Spec.well_formed_id (Importer.generate_dealer_id Sample.long_name) = false.
Proof. repeat split; vm_compute; reflexivity. Qed.

End Identifiers.

(* ===================================================================== *)
(** ** More on the normalization of ZIPs *)
(* ===================================================================== *)

Section Normalization.

Import Py.

Lemma keep_chars_lstrip (q p : ascii -> bool) (s : string) :
  (forall c, p c = true -> q c = false) ->
  keep_chars q (lstrip p s) = keep_chars q s.
Proof.
  intros Hpq. induction s as [|c s IH]; simpl; [reflexivity|].
  destruct (p c) eqn:Hp; [|reflexivity]. now rewrite (Hpq c Hp).
Qed.

Lemma keep_chars_rstrip (q p : ascii -> bool) (s : string) :
  (forall c, p c = true -> q c = false) ->
  keep_chars q (rstrip p s) = keep_chars q s.
Proof.
  intros Hpq. induction s as [|c s IH]; simpl; [reflexivity|].
  destruct (p c) eqn:Hp; simpl.
  - rewrite (Hpq c Hp). destruct (rstrip p s) eqn:R; simpl.
    + now rewrite <- IH.
    + rewrite (Hpq c Hp). exact IH.
  - now rewrite IH.
Qed.

Lemma keep_chars_all (q : ascii -> bool) (s : string) :
  all_chars q s = true -> keep_chars q s = s.
Proof.
  induction s as [|c s IH]; simpl; [reflexivity|].
  rewrite andb_true_iff. intros [-> Hs]. now rewrite IH.
Qed.

Lemma keep_chars_app (q : ascii -> bool) (s1 s2 : string) :
  keep_chars q (s1 ++ s2) = (keep_chars q s1 ++ keep_chars q s2)%string.
Proof.
  induction s1 as [|c s1 IH]; [reflexivity|].
  rewrite app_cons. simpl. destruct (q c); [|exact IH].
  now rewrite app_cons, IH.
Qed.

Lemma space_not_digit (c : ascii) : is_space c = true -> is_digit c = false.
Proof. destruct c as [[] [] [] [] [] [] [] []]; vm_compute; congruence. Qed.

Lemma keep_digits_strip (s : string) :
  keep_chars is_digit (strip s) = keep_chars is_digit s.
Proof.
  unfold strip, strip_by.
  rewrite keep_chars_rstrip, keep_chars_lstrip; auto using space_not_digit.
Qed.

Lemma take_app_exact (s1 s2 : string) :
  take (String.length s1) (s1 ++ s2) = s1.
Proof.
  induction s1 as [|c s1 IH]; [now destruct s2|].
  rewrite app_cons. simpl. now rewrite IH.
Qed.

Lemma normalize_zip_by_digits_aux (s : string) :
  Expander.normalize_zip s = take 5 (zfill 5 (keep_chars is_digit s)).
Proof.
  unfold Expander.normalize_zip.
  destruct (isdigit (strip s)) eqn:Hd; simpl negb; cbv iota.
  - rewrite <- keep_digits_strip.
    now rewrite (keep_chars_all is_digit (strip s) (isdigit_all _ Hd)).
  - now rewrite keep_digits_strip.
Qed.

(** X1. The normalization of the Expander only looks at the digits of the
    ZIP: its result is the digits of the text, in order, padded with zeros
    on the left to five characters and cut after the fifth.  The test for a
    pure digit string changes nothing. *)
Theorem normalize_zip_by_digits (s : string) :
  Expander.normalize_zip s = take 5 (zfill 5 (keep_chars is_digit s)).
Proof. exact (normalize_zip_by_digits_aux s). Qed.


(** X3. Normalizing twice is normalizing once, for every text. *)
Theorem normalize_zip_idempotent_everywhere (s : string) :
  Expander.normalize_zip (Expander.normalize_zip s) = Expander.normalize_zip s.
Proof. exact (normalize_zip_twice s). Qed.

(** X4. A text that starts with a five-digit ZIP, such as a ZIP+4 code,
    normalizes to that ZIP: whatever follows the fifth digit is dropped. *)
Theorem normalize_zip_drops_extension (z rest : string) :
  Spec.is_zip5 z = true -> Expander.normalize_zip (z ++ rest) = z.
Proof.
  intros Hz. apply is_zip5_spec in Hz as [Hlen Hdig].
  rewrite normalize_zip_by_digits_aux, keep_chars_app, (keep_chars_all _ z Hdig).
  rewrite zfill_digits.
  - rewrite length_app, Hlen. simpl zeros. rewrite app_empty_l.
    rewrite <- Hlen at 1. apply take_app_exact.
  - rewrite all_chars_app, Hdig. apply all_chars_keep.
Qed.

End Normalization.

Lemma normalize_zip_drops_extension_witness :
  Spec.is_zip5 "94105" = true /\
  Expander.normalize_zip ("94105" ++ "-1234") = "94105".
Proof.
  split; [reflexivity|].
  apply (normalize_zip_drops_extension "94105" "-1234"). reflexivity.
Defined.

(* ===================================================================== *)
(** ** More on the reference table *)
(* ===================================================================== *)

Section TableLookup.

Import Expander.

Lemma dict_get_set (k k' : string) (v : coords) (d : dict) :
  dict_get k (dict_set k' v d) =
    if String.eqb k k' then Some v else dict_get k d.
Proof.
  induction d as [|[k0 v0] d IH]; simpl.
  - reflexivity.
  - destruct (String.eqb k' k0) eqn:E0; simpl.
    + apply String.eqb_eq in E0. subst k0.
      now destruct (String.eqb k k').
    + destruct (String.eqb k k0) eqn:E1.
      * apply String.eqb_eq in E1. subst k0.
        rewrite String.eqb_sym in E0. now rewrite E0.
      * exact IH.
Qed.

Lemma load_zip_coords_get (k : string) (data : list geo_row) :
  dict_get k (load_zip_coords data) = Spec.last_coordinates k data.
Proof.
  unfold load_zip_coords.
  assert (H : forall data d,
    dict_get k (fold_left
      (fun zc row => dict_set (Py.zfill 5 (fst row)) (snd row) zc)
      (valid_rows data) d) =
    match Spec.last_coordinates k data with
    | Some c => Some c
    | None => dict_get k d
    end).
  { clear data. induction data as [|row data IH]; intros d; [reflexivity|].
    unfold valid_rows. simpl omap. simpl Spec.last_coordinates.
    destruct (latitude row) as [lat|]; [destruct (longitude row) as [lon|]|].
    - simpl. fold (valid_rows data). rewrite IH.
      destruct (Spec.last_coordinates k data); [reflexivity|].
      rewrite dict_get_set. simpl.
      now destruct (String.eqb k (Py.zfill 5 (postal_code row))).
    - fold (valid_rows data). rewrite IH.
      now destruct (Spec.last_coordinates k data).
    - fold (valid_rows data). rewrite IH.
      now destruct (Spec.last_coordinates k data). }
  rewrite H. now destruct (Spec.last_coordinates k data).
Qed.

(** X5. The table answers a lookup with the coordinates of the last row of
    the postal-code data whose zero-padded postal code is the key, rows
    without a latitude or a longitude not counted: when the data has several
    rows for one ZIP, the last one wins. *)
Theorem zip_coords_last_row_wins (k : string) (data : list geo_row) :
  dict_get k (load_zip_coords data) = Spec.last_coordinates k data.
Proof. exact (load_zip_coords_get k data). Qed.

(** X6. A row without a latitude or without a longitude contributes nothing:
    the table is the one built from the data without that row. *)
Theorem zip_coords_skips_incomplete_rows (data1 data2 : list geo_row) (row : geo_row) :
  latitude row = None \/ longitude row = None ->
  load_zip_coords (data1 ++ row :: data2) = load_zip_coords (data1 ++ data2).
Proof.
  intros Hrow. unfold load_zip_coords. f_equal.
  unfold valid_rows. rewrite !omap_app. f_equal. simpl.
  destruct Hrow as [-> | ->]; [reflexivity|]. now destruct (latitude row).
Qed.

End TableLookup.

Lemma zip_coords_skips_incomplete_rows_witness :
  Expander.load_zip_coords
    ([Expander.mkGeoRow "94105" (Some 37.79%R) (Some (-122.39)%R)]
       ++ Expander.mkGeoRow "99950" None (Some (-131.5)%R) :: []) =
  Expander.load_zip_coords
    ([Expander.mkGeoRow "94105" (Some 37.79%R) (Some (-122.39)%R)] ++ []).
Proof.
  apply (zip_coords_skips_incomplete_rows
           [Expander.mkGeoRow "94105" (Some 37.79%R) (Some (-122.39)%R)] []
           (Expander.mkGeoRow "99950" None (Some (-131.5)%R))).
  left. reflexivity.
Defined.

(* ===================================================================== *)
(** ** More on the haversine distance *)
(* ===================================================================== *)

Section DistanceFacts.

Import Expander.
Local Open Scope R_scope.

Lemma atan_nonneg (t : R) : 0 <= t -> 0 <= atan t.
Proof.
  intros [Ht | <-].
  - left. rewrite <- atan_0. now apply atan_increasing.
  - rewrite atan_0. lra.
Qed.

(** For arguments that are not negative the angle lies in the first
    quadrant. *)
Lemma arctan2_first_quadrant (y x : R) :
  0 <= y -> 0 <= x -> 0 <= arctan2 y x <= PI / 2.
Proof.
  intros Hy Hx. unfold arctan2. pose proof PI2_RGT_0 as Hpi.
  destruct (Rlt_dec 0 x) as [Hx0|Hx0].
  - split.
    + apply atan_nonneg. apply Rmult_le_pos; [exact Hy|].
      left. now apply Rinv_0_lt_compat.
    + left. apply atan_bound.
  - destruct (Rlt_dec x 0) as [Hx1|_]; [lra|].
    destruct (Rlt_dec 0 y) as [_|_]; [lra|].
    destruct (Rlt_dec y 0) as [Hy1|_]; [lra|]. lra.
Qed.

Lemma haversine_range (lat1 lon1 lat lon : R) :
  0 <= haversine lat1 lon1 lat lon <= 3959 * PI.
Proof.
  unfold haversine. cbv zeta.
  set (a := sin _ ^ 2 + _).
  pose proof (arctan2_first_quadrant (sqrt a) (sqrt (1 - a))
                (sqrt_pos a) (sqrt_pos (1 - a))) as [H0 H1].
  split; nra.
Qed.

Lemma haversine_swap (lat1 lon1 lat lon : R) :
  haversine lat1 lon1 lat lon = haversine lat lon lat1 lon1.
Proof.
  unfold haversine. cbv zeta.
  replace (radians (lat1 - lat) / 2) with (- (radians (lat - lat1) / 2))
    by (unfold radians; field).
  replace (radians (lon1 - lon) / 2) with (- (radians (lon - lon1) / 2))
    by (unfold radians; field).
  rewrite !sin_neg.
  replace ((- sin (radians (lat - lat1) / 2)) ^ 2 +
           cos (radians lat) * cos (radians lat1) *
           (- sin (radians (lon - lon1) / 2)) ^ 2)
    with (sin (radians (lat - lat1) / 2) ^ 2 +
          cos (radians lat1) * cos (radians lat) *
          sin (radians (lon - lon1) / 2) ^ 2) by ring.
  reflexivity.
Qed.

(** X7. The distance is symmetric: from a centre to a candidate it is what
    it is from the candidate to the centre. *)
Theorem haversine_symmetric (c c' : coords) : distance c c' = distance c' c.
Proof. apply haversine_swap. Qed.


End DistanceFacts.

Section DistanceArgument.

Import Expander.
Local Open Scope R_scope.



End DistanceArgument.

(* ===================================================================== *)
(** ** Extreme radii *)
(* ===================================================================== *)

Section ExtremeRadii.

Import Expander.

Lemma nil_of_no_member (l : list string) : (forall x, ~ List.In x l) -> l = [].
Proof. destruct l as [|a l]; [reflexivity|]. intros H. destruct (H a). now left. Qed.

(** X10. With a negative radius a dealer whose ZIP resolves gets an empty
    coverage, its own ZIP not included, and the negative radius is recorded
    all the same. *)
Theorem negative_radius_covers_nothing (radius_miles : Z) (data : list geo_row)
    (d : Dealer) (z : string) (c : coords) :
  zip (address d) = Some z -> z <> EmptyString ->
  dict_get (normalize_zip z) (load_zip_coords data) = Some c ->
  (radius_miles < 0)%Z ->
  coverage_zips (expand_record radius_miles data d) = [] /\
  coverage_radius_miles (expand_record radius_miles data d) = Some radius_miles.
Proof.
  intros Hz Hne Hget Hr. split.
  - apply nil_of_no_member. intros x Hx.
    apply (coverage_found_In radius_miles data d z c x Hz Hne Hget) in Hx
      as [c' [_ Hd]].
    pose proof (haversine_range (fst c) (snd c) (fst c') (snd c')) as [H0 _].
    apply IZR_lt in Hr. unfold distance in Hd. lra.
  - now rewrite (expand_record_found radius_miles data d z c Hz Hne Hget).
Qed.


End ExtremeRadii.

Lemma negative_radius_covers_nothing_witness :
  coverage_zips (Expander.expand_record (-1) Sample.table Sample.acme) = [] /\
  coverage_radius_miles (Expander.expand_record (-1) Sample.table Sample.acme)
    = Some (-1)%Z.
Proof.
  apply (negative_radius_covers_nothing (-1) Sample.table Sample.acme "94105"
           (37.79, -122.39)%R);
    [reflexivity | discriminate | reflexivity | lia].
Defined.


(* ===================================================================== *)
(** ** What the Expander writes and counts *)
(* ===================================================================== *)

Section ExpanderOutput.

Import Expander.

Lemma expand_record_untouched (radius_miles : Z) (data : list geo_row) (d : Dealer) :
  Spec.same_untouched_fields d (expand_record radius_miles data d).
Proof.
  destruct (expander_cases radius_miles data d) as [-> | [[z ->] | [l [-> _]]]];
    repeat split.
Qed.

Lemma expand_record_zip (radius_miles : Z) (data : list geo_row) (d : Dealer) :
  zip (address (expand_record radius_miles data d)) = zip (address d).
Proof.
  destruct (expand_record_untouched radius_miles data d)
    as (_ & _ & _ & _ & _ & _ & -> & _). reflexivity.
Qed.

(** X12. The array the Expander writes has one record for each dealer it
    read, in the same order, and each record has kept every field except
    [coverage_zips] and [coverage_radius_miles]. *)
Theorem expander_keeps_order_and_fields (radius_miles : Z) (data : list geo_row)
    (dealers : list Dealer) :
  List.Forall2 Spec.same_untouched_fields
    dealers (fst (main radius_miles data dealers)).
Proof.
  rewrite main_records. induction dealers as [|d ds IH]; simpl; constructor.
  - apply expand_record_untouched.
  - exact IH.
Qed.

Lemma expand_record_again (r1 r2 : Z) (data : list geo_row) (d : Dealer) :
  expand_record r2 data (expand_record r1 data d) = expand_record r2 data d.
Proof.
  pose proof (expand_record_zip r1 data d) as Hzip.
  destruct (zip (address d)) as [z|] eqn:Hz.
  - destruct z as [|ch z].
    + rewrite (expand_record_no_zip r2 data (expand_record r1 data d)) by auto.
      rewrite (expand_record_no_zip r2 data d) by auto.
      rewrite (expand_record_no_zip r1 data d) by auto. reflexivity.
    + assert (Hne : String ch z <> EmptyString) by discriminate.
      destruct (dict_get (normalize_zip (String ch z)) (load_zip_coords data))
        as [c|] eqn:Hget.
      * rewrite (expand_record_found r2 data _ _ c Hzip Hne Hget).
        rewrite (expand_record_found r2 data d _ c Hz Hne Hget).
        rewrite (expand_record_found r1 data d _ c Hz Hne Hget). reflexivity.
      * rewrite (expand_record_not_found r2 data _ _ Hzip Hne Hget).
        rewrite (expand_record_not_found r2 data d _ Hz Hne Hget).
        rewrite (expand_record_not_found r1 data d _ Hz Hne Hget). reflexivity.
  - rewrite (expand_record_no_zip r2 data (expand_record r1 data d)) by auto.
    rewrite (expand_record_no_zip r2 data d) by auto.
    rewrite (expand_record_no_zip r1 data d) by auto. reflexivity.
Qed.

(** X13. Running the Expander on its own output, with any radius and the
    same reference table, gives what a single run with that radius gives on
    the original dealers: the earlier expansion leaves no trace, and a
    second run with the same radius changes nothing. *)
Theorem expander_rerun (r1 r2 : Z) (data : list geo_row) (dealers : list Dealer) :
  fst (main r2 data (fst (main r1 data dealers))) = fst (main r2 data dealers).
Proof.
  rewrite !main_records, map_map. apply map_ext. intros d.
  apply expand_record_again.
Qed.

(** X14. Every dealer is counted once: the counters of expanded dealers, of
    dealers without ZIP and of dealers whose ZIP was not found add up to the
    number of dealers. *)
Theorem expander_counts_every_dealer (radius_miles : Z) (data : list geo_row)
    (dealers : list Dealer) :
  let s := snd (main radius_miles data dealers) in
  (expanded s + skipped_no_zip s + skipped_not_found s = length dealers)%nat.
Proof. exact (main_counts radius_miles data dealers). Qed.

End ExpanderOutput.

Section ExpanderSummary.

Import Expander.

Lemma expand_dealer_consistent (radius_miles : Z) (zc : dict) (keys : list string)
    (lats lons : list R) (s : Stats) (d : Dealer) :
  Spec.stats_consistent s ->
  Spec.stats_consistent (fst (expand_dealer radius_miles zc keys lats lons s d)).
Proof.
  unfold Spec.stats_consistent, expand_dealer. intros Hs.
  destruct (zip (address d)) as [[|ch z]|]; simpl; try exact Hs.
  destruct (dict_get _ zc) as [[lat lon]|]; simpl; [|exact Hs].
  set (n := length _). clearbody n. destruct (min_coverage s) as [m|].
  - destruct Hs as (He & Hlo & Hhi). repeat split; [lia| |].
    + destruct (Nat.min_spec m n) as [[Hmn ->] | [Hmn ->]]; nia.
    + destruct (Nat.max_spec (max_coverage s) n) as [[Hmn ->] | [Hmn ->]]; nia.
  - destruct Hs as (-> & -> & ->). simpl. repeat split; lia.
Qed.

Lemma main_consistent (radius_miles : Z) (data : list geo_row) (dealers : list Dealer) :
  Spec.stats_consistent (snd (main radius_miles data dealers)).
Proof.
  unfold main.
  set (step := fun (acc : list Dealer * Stats) (dealer : Dealer) => _).
  assert (H : forall ds out stats,
    Spec.stats_consistent stats ->
    Spec.stats_consistent (snd (fold_left step ds (out, stats)))).
  { induction ds as [|d ds IH]; intros out stats Hs; simpl; [exact Hs|].
    pose proof (expand_dealer_consistent radius_miles (load_zip_coords data)
      (dict_keys (load_zip_coords data))
      (map (fun z => fst (dict_item z (load_zip_coords data)))
           (dict_keys (load_zip_coords data)))
      (map (fun z => snd (dict_item z (load_zip_coords data)))
           (dict_keys (load_zip_coords data))) stats d Hs) as Hc.
    destruct (expand_dealer _ _ _ _ _ stats d) as [stats' d'] eqn:E.
    assert (Es : step (out, stats) d = (out ++ [d'], stats')).
    { unfold step. simpl. now rewrite E. }
    rewrite Es. apply IH. exact Hc. }
  apply H. unfold Spec.stats_consistent. simpl. auto.
Qed.

(** X15. The summary of a run is consistent.  When no dealer was expanded
    the minimum is still infinite and the total and the maximum are 0.  When
    some dealer was expanded, the average that is printed, the total divided
    by the number of expanded dealers and rounded down, lies between the
    minimum and the maximum coverage. *)
Theorem expander_summary_consistent (radius_miles : Z) (data : list geo_row)
    (dealers : list Dealer) :
  let s := snd (main radius_miles data dealers) in
  match min_coverage s with
  | None => expanded s = 0%nat /\ total_zips s = 0%nat /\ max_coverage s = 0%nat
  | Some m =>
      (0 < expanded s)%nat /\
      (m <= total_zips s / expanded s)%nat /\
      (total_zips s / expanded s <= max_coverage s)%nat
  end.
Proof.
  intros s. pose proof (main_consistent radius_miles data dealers) as H.
  fold s in H. unfold Spec.stats_consistent in H.
  destruct (min_coverage s) as [m|]; [|exact H].
  destruct H as (He & Hlo & Hhi). repeat split; [exact He| |].
  - apply Nat.div_le_lower_bound; lia.
  - apply Nat.Div0.div_le_upper_bound; lia.
Qed.

End ExpanderSummary.

(* ===================================================================== *)
(** ** The cleaning of contact cells *)
(* ===================================================================== *)

Section ContactCells.

Import Py Importer.

Lemma first_line_one_line (s : string) : Spec.one_line (first_line s) = true.
Proof.
  unfold Spec.one_line. induction s as [|c s IH]; simpl; [reflexivity|].
  destruct (Ascii.eqb c "010") eqn:E; simpl; [reflexivity|]. now rewrite E.
Qed.

Lemma starts_in_lstrip (p : ascii -> bool) (s : string) :
  Spec.starts_in p (lstrip p s) = false.
Proof.
  induction s as [|c s IH]; simpl; [reflexivity|].
  destruct (p c) eqn:E; [exact IH|]. simpl. exact E.
Qed.

Lemma starts_in_rstrip (p q : ascii -> bool) (s : string) :
  Spec.starts_in q s = false -> Spec.starts_in q (rstrip p s) = false.
Proof.
  destruct s as [|c s]; simpl; [reflexivity|].
  now destruct (p c && is_empty (rstrip p s)).
Qed.

Lemma ends_in_rstrip (p : ascii -> bool) (s : string) :
  Spec.ends_in p (rstrip p s) = false.
Proof.
  induction s as [|c s IH]; simpl; [reflexivity|].
  destruct (p c) eqn:E; simpl.
  - destruct (rstrip p s) eqn:R; simpl; [reflexivity | exact IH].
  - destruct (rstrip p s) eqn:R; simpl; [exact E | exact IH].
Qed.

Lemma ends_in_cons (p : ascii -> bool) (c : ascii) (s : string) :
  Spec.ends_in p s = true -> Spec.ends_in p (String c s) = true.
Proof. destruct s; simpl; [discriminate | tauto]. Qed.

Lemma ends_in_lstrip (p q : ascii -> bool) (s : string) :
  Spec.ends_in q (lstrip p s) = true -> Spec.ends_in q s = true.
Proof.
  induction s as [|c s IH]; [tauto|].
  simpl lstrip. destruct (p c); [|tauto].
  intros H. apply ends_in_cons. auto.
Qed.

(** White space at the ends of a stripped text: there is none. *)
Lemma strip_ends (s : string) :
  Spec.starts_in is_space (strip s) = false /\
  Spec.ends_in is_space (strip s) = false.
Proof.
  unfold strip, strip_by. split.
  - apply starts_in_rstrip, starts_in_lstrip.
  - apply ends_in_rstrip.
Qed.

Lemma lower_char_space (c : ascii) : is_space (lower_char c) = is_space c.
Proof. destruct c as [[] [] [] [] [] [] [] []]; vm_compute; reflexivity. Qed.

Lemma lower_char_newline (c : ascii) :
  Ascii.eqb (lower_char c) "010" = Ascii.eqb c "010".
Proof. destruct c as [[] [] [] [] [] [] [] []]; vm_compute; reflexivity. Qed.

Lemma lower_char_at (c : ascii) :
  Ascii.eqb "@" (lower_char c) = Ascii.eqb "@" c.
Proof. destruct c as [[] [] [] [] [] [] [] []]; vm_compute; reflexivity. Qed.

Lemma starts_in_map (p : ascii -> bool) (f : ascii -> ascii) (s : string) :
  (forall c, p (f c) = p c) ->
  Spec.starts_in p (map_chars f s) = Spec.starts_in p s.
Proof. intros H. destruct s; simpl; auto. Qed.

Lemma ends_in_map (p : ascii -> bool) (f : ascii -> ascii) (s : string) :
  (forall c, p (f c) = p c) ->
  Spec.ends_in p (map_chars f s) = Spec.ends_in p s.
Proof.
  intros H. induction s as [|c s IH]; simpl; [reflexivity|].
  destruct s as [|c' s]; simpl; [apply H | exact IH].
Qed.

Lemma all_chars_map_eq (p : ascii -> bool) (f : ascii -> ascii) (s : string) :
  (forall c, p (f c) = p c) ->
  all_chars p (map_chars f s) = all_chars p s.
Proof.
  intros H. induction s as [|c s IH]; simpl; [reflexivity|]. now rewrite H, IH.
Qed.

Lemma contains_map (a : ascii) (f : ascii -> ascii) (s : string) :
  (forall c, Ascii.eqb a (f c) = Ascii.eqb a c) ->
  contains a (map_chars f s) = contains a s.
Proof.
  intros H. induction s as [|c s IH]; simpl; [reflexivity|]. now rewrite H, IH.
Qed.

Lemma is_empty_map (f : ascii -> ascii) (s : string) :
  is_empty (map_chars f s) = is_empty s.
Proof. now destruct s. Qed.

(** X16. An e-mail address that [clean_email] lets through is not empty, is
    one line without white space at either end, contains ["@"] and has no
    capital letter. *)
Theorem clean_email_shape (email_str : option string) (r : string) :
  clean_email email_str = Some r ->
  Spec.trimmed_line r = true /\
  contains "@" r = true /\
  all_chars (fun c => negb (is_upper c)) r = true.
Proof.
  destruct email_str as [e|]; [|discriminate]. unfold clean_email.
  set (x := strip (first_line e)).
  destruct (negb (is_empty x) && contains "@" x) eqn:Hx; [|discriminate].
  intros [= <-]. apply andb_true_iff in Hx as [Hne Hat].
  destruct (strip_ends (first_line e)) as [Hs He]. fold x in Hs, He.
  repeat split.
  - unfold Spec.trimmed_line, lower.
    rewrite is_empty_map, Hne.
    rewrite (starts_in_map _ _ x lower_char_space), Hs.
    rewrite (ends_in_map _ _ x lower_char_space), He.
    unfold Spec.one_line.
    rewrite (all_chars_map_eq (fun c => negb (Ascii.eqb c "010")) lower_char x)
      by (intros c; now rewrite lower_char_newline).
    unfold x, strip.
    rewrite (all_chars_strip_by _ is_space (first_line e) (first_line_one_line e)).
    reflexivity.
  - unfold lower. now rewrite (contains_map "@" lower_char x lower_char_at).
  - apply all_chars_map. intros c. now rewrite lower_char_not_upper.
Qed.

(** The removal of the prefix, with the tests on characters spelled out. *)
Lemma drop_c_dash_eq (s : string) :
  drop_c_dash s =
    match s with
    | EmptyString => s
    | String c rest =>
        if Ascii.eqb c "c" then
          match lstrip is_space rest with
          | EmptyString => s
          | String c' rest' =>
              if Ascii.eqb c' "-" then lstrip is_space rest' else s
          end
        else s
    end.
Proof.
  destruct s as [|c rest]; [reflexivity|].
  destruct c as [[] [] [] [] [] [] [] []]; try reflexivity.
  unfold drop_c_dash. simpl Ascii.eqb. cbv iota.
  destruct (lstrip is_space rest) as [|c' rest']; [reflexivity|].
  destruct c' as [[] [] [] [] [] [] [] []]; reflexivity.
Qed.

Lemma drop_c_dash_all (q : ascii -> bool) (s : string) :
  all_chars q s = true -> all_chars q (drop_c_dash s) = true.
Proof.
  intros H. rewrite drop_c_dash_eq.
  destruct s as [|c rest]; [exact H|].
  destruct (Ascii.eqb c "c"); [|exact H].
  pose proof H as H'. simpl in H'. apply andb_true_iff in H' as [_ Hrest].
  pose proof (all_chars_lstrip q is_space rest Hrest) as H1.
  destruct (lstrip is_space rest) as [|c' rest']; [exact H|].
  destruct (Ascii.eqb c' "-"); [|exact H].
  simpl in H1. apply andb_true_iff in H1 as [_ H1].
  now apply all_chars_lstrip.
Qed.

Lemma drop_c_dash_starts (s : string) :
  Spec.starts_in is_space s = false ->
  Spec.starts_in is_space (drop_c_dash s) = false.
Proof.
  intros H. rewrite drop_c_dash_eq.
  destruct s as [|c rest]; [exact H|].
  destruct (Ascii.eqb c "c"); [|exact H].
  destruct (lstrip is_space rest) as [|c' rest']; [exact H|].
  destruct (Ascii.eqb c' "-"); [|exact H].
  apply starts_in_lstrip.
Qed.

Lemma drop_c_dash_ends (s : string) :
  Spec.ends_in is_space s = false ->
  Spec.ends_in is_space (drop_c_dash s) = false.
Proof.
  intros H. rewrite drop_c_dash_eq.
  destruct s as [|c rest]; [exact H|].
  destruct (Ascii.eqb c "c"); [|exact H].
  destruct (lstrip is_space rest) as [|c' rest'] eqn:E; [exact H|].
  destruct (Ascii.eqb c' "-"); [|exact H].
  destruct (Spec.ends_in is_space (lstrip is_space rest')) eqn:Hend;
    [|reflexivity].
  apply ends_in_lstrip in Hend.
  apply (ends_in_cons is_space c') in Hend. rewrite <- E in Hend.
  apply ends_in_lstrip in Hend.
  apply (ends_in_cons is_space c) in Hend. congruence.
Qed.

(** X17. A phone number that [clean_phone] lets through is not empty and is
    one line without white space at either end, whether or not a leading
    ["c -"] was removed. *)
Theorem clean_phone_shape (phone_str : option string) (r : string) :
  clean_phone phone_str = Some r -> Spec.trimmed_line r = true.
Proof.
  destruct phone_str as [p|]; [|discriminate]. unfold clean_phone.
  destruct (is_empty (drop_c_dash (strip (first_line p)))) eqn:Hne;
    [discriminate|].
  intros [= <-]. destruct (strip_ends (first_line p)) as [Hs He].
  unfold Spec.trimmed_line. rewrite Hne.
  rewrite (drop_c_dash_starts _ Hs), (drop_c_dash_ends _ He).
  unfold Spec.one_line. rewrite drop_c_dash_all; [reflexivity|].
  apply all_chars_strip_by, first_line_one_line.
Qed.

(** X18. The cleaned state has no lowercase letter and no white space at
    either end. *)
Theorem clean_state_shape (state_cell : option string) (r : string) :
  clean_state state_cell = Some r ->
  all_chars (fun c => negb (is_lower c)) r = true /\
  Spec.starts_in is_space r = false /\
  Spec.ends_in is_space r = false.
Proof.
  destruct state_cell as [s|]; [|discriminate]. unfold clean_state.
  intros [= <-]. split; [|apply strip_ends].
  apply all_chars_strip_by, all_chars_map. intros c.
  destruct c as [[] [] [] [] [] [] [] []]; vm_compute; reflexivity.
Qed.

End ContactCells.

Lemma clean_email_shape_witness :
  Spec.trimmed_line "bob@x.com" = true /\
  Py.contains "@" "bob@x.com" = true /\
  Py.all_chars (fun c => negb (Py.is_upper c)) "bob@x.com" = true.
Proof.
  apply (clean_email_shape (Some "  Bob@X.com
second@line.org") "bob@x.com"). reflexivity.
Defined.

Lemma clean_phone_shape_witness : Spec.trimmed_line "555-1212" = true.
Proof.
  apply (clean_phone_shape (Some "c - 555-1212
o - 555-3434") "555-1212"). reflexivity.
Defined.

Lemma clean_state_shape_witness :
  Py.all_chars (fun c => negb (Py.is_lower c)) "CA" = true /\
  Spec.starts_in Py.is_space "CA" = false /\
  Spec.ends_in Py.is_space "CA" = false.
Proof. apply (clean_state_shape (Some " ca ") "CA"). reflexivity. Defined.

(* ===================================================================== *)
(** ** The duplicate pass of the Importer *)
(* ===================================================================== *)

Section DuplicatePass.

Import Importer.

Lemma count_app (l1 l2 : list string) (x : string) :
  count (l1 ++ l2) x = (count l1 x + count l2 x)%nat.
Proof. apply count_occ_app. Qed.

Lemma count_cons (l : list string) (y x : string) :
  count (y :: l) x = ((if string_dec y x then 1 else 0) + count l x)%nat.
Proof. unfold count. simpl. now destruct (string_dec y x). Qed.

(** The loop with its dictionary [seen] numbers by occurrence, as long as
    [seen] holds, for every identifier that occurs more than once, how often
    it occurred among the identifiers [pre] already passed. *)
Lemma rename_duplicates_numbers (ids : list string) (dealers : list Dealer) :
  forall (pre : list string) (seen : gmap string nat),
  ids = pre ++ map dealer_id dealers ->
  (forall b, (1 < count ids b)%nat -> default 0%nat (seen !! b) = count pre b) ->
  rename_duplicates ids seen dealers = Spec.number_duplicates pre dealers.
Proof.
  induction dealers as [|d rest IH]; intros pre seen Hids Hseen; [reflexivity|].
  simpl rename_duplicates. simpl Spec.number_duplicates.
  assert (Hcount : count ids (dealer_id d) =
    (count pre (dealer_id d) + 1 + count (map dealer_id rest) (dealer_id d))%nat).
  { rewrite Hids. simpl map. rewrite count_app, count_cons.
    destruct (string_dec (dealer_id d) (dealer_id d)); [lia|congruence]. }
  assert (Hids' : ids = (pre ++ [dealer_id d]) ++ map dealer_id rest).
  { rewrite Hids, <- app_assoc. reflexivity. }
  destruct (1 <? count ids (dealer_id d))%nat eqn:Hdup.
  - apply Nat.ltb_lt in Hdup. rewrite (Hseen _ Hdup), Nat.add_1_r.
    f_equal. apply IH; [exact Hids'|].
    intros b Hb. rewrite count_app, count_cons. simpl count.
    destruct (string_dec (dealer_id d) b) as [<-|Hne].
    + rewrite lookup_insert_eq. simpl. lia.
    + rewrite lookup_insert_ne by exact Hne. rewrite (Hseen b Hb).
      unfold count. simpl. lia.
  - apply Nat.ltb_ge in Hdup.
    assert (Hzero : count pre (dealer_id d) = 0%nat) by lia.
    rewrite Hzero. simpl. f_equal. apply IH; [exact Hids'|].
    intros b Hb. rewrite count_app, count_cons.
    destruct (string_dec (dealer_id d) b) as [<-|Hne]; [lia|].
    rewrite (Hseen b Hb). unfold count. simpl. lia.
Qed.

Lemma number_duplicates_distinct (ids : list string) (dealers : list Dealer) :
  forall pre : list string,
  ids = pre ++ map dealer_id dealers ->
  (forall b, (count ids b <= 1)%nat) ->
  Spec.number_duplicates pre dealers = dealers.
Proof.
  induction dealers as [|d rest IH]; intros pre Hids Hone; [reflexivity|].
  simpl. pose proof (Hone (dealer_id d)) as H1.
  rewrite Hids in H1. simpl map in H1. rewrite count_app, count_cons in H1.
  destruct (string_dec (dealer_id d) (dealer_id d)); [|congruence].
  assert (Hzero : count pre (dealer_id d) = 0%nat) by lia.
  rewrite Hzero. simpl. f_equal. apply IH; [|exact Hone].
  rewrite Hids, <- app_assoc. reflexivity.
Qed.

Lemma handle_duplicate_ids_numbers (dealers : list Dealer) :
  handle_duplicate_ids dealers = Spec.number_duplicates [] dealers.
Proof.
  unfold handle_duplicate_ids. case_bool_decide as Hdup.
  - symmetry. apply (number_duplicates_distinct (map dealer_id dealers));
      [reflexivity|].
    intros b. destruct (Nat.le_gt_cases (count (map dealer_id dealers) b) 1)
      as [Hle|Hgt]; [exact Hle|]. exfalso.
    assert (Hin : b ∈ (∅ : gset string)); [|set_solver].
    rewrite <- Hdup. apply elem_of_list_to_set, list_elem_of_In, filter_In.
    split.
    + apply (count_occ_In string_dec). unfold count in Hgt. lia.
    + now apply Nat.ltb_lt.
  - apply rename_duplicates_numbers; [reflexivity|].
    intros b _. now rewrite lookup_empty.
Qed.

(** X19. The duplicate pass numbers by occurrence: in the array that
    [process_excel] returns, the first record to hold an identifier keeps it
    and the k-th record holding the same generated identifier, for k of 2
    or more, has it with the suffix [_k]; nothing else differs from the
    records built from the rows. *)
Theorem process_excel_numbers_duplicates (df_112 df_top50 : list row) :
  process_excel df_112 df_top50 =
  Spec.number_duplicates [] (map (make_dealer (top50_names df_top50)) df_112).
Proof. unfold process_excel. apply handle_duplicate_ids_numbers. Qed.

(** X20. When the identifiers generated from the names are pairwise
    distinct, the duplicate pass changes nothing. *)
Theorem process_excel_distinct_names (df_112 df_top50 : list row) :
  List.NoDup (map dealer_id (map (make_dealer (top50_names df_top50)) df_112)) ->
  process_excel df_112 df_top50 = map (make_dealer (top50_names df_top50)) df_112.
Proof.
  intros Hnd. unfold process_excel. rewrite handle_duplicate_ids_numbers.
  apply (number_duplicates_distinct
           (map dealer_id (map (make_dealer (top50_names df_top50)) df_112)));
    [reflexivity|].
  intros b. now apply (NoDup_count_occ string_dec).
Qed.

End DuplicatePass.

Lemma process_excel_distinct_names_witness :
  Importer.process_excel Sample.roster1 [] =
  map (Importer.make_dealer (Importer.top50_names [])) Sample.roster1.
Proof.
  apply (process_excel_distinct_names Sample.roster1 []).
  repeat constructor. intros [].
Defined.

(* ===================================================================== *)
(** ** The records of the Importer, row by row *)
(* ===================================================================== *)

Section ImporterRecords.

Import Importer.

(** X21. The priority weight mirrors the flag: 100 for a dealer flagged as
    top 50 and 50 for every other dealer. *)
Theorem priority_weight_mirrors_flag (df_112 df_top50 : list row) :
  List.Forall
    (fun d => priority_weight d = if is_top50 d then 100%Z else 50%Z)
    (process_excel df_112 df_top50).
Proof.
  apply List.Forall_forall. intros d Hd.
  apply process_excel_In in Hd as [r [_ ->]]. reflexivity.
Qed.

(** X22. A dealer is flagged as top 50 exactly when its name, in lowercase
    and stripped, is the lowercase stripped name of some row of the Top 50
    sheet; rows of that sheet without a name match nothing. *)
Theorem top50_flag_by_name (df_112 df_top50 : list row) :
  List.Forall
    (fun d =>
       is_top50 d = true <->
       exists r' n, List.In r' df_top50 /\ col_dealer_name r' = Some n /\
                    Py.strip (Py.lower n) = Py.strip (Py.lower (dealer_name d)))
    (process_excel df_112 df_top50).
Proof.
  apply List.Forall_forall. intros d Hd.
  apply process_excel_In in Hd as [r [_ ->]]. simpl is_top50. simpl dealer_name.
  rewrite bool_decide_eq_true. unfold top50_names.
  rewrite elem_of_list_to_set, list_elem_of_omap. split.
  - intros [r' [Hr' Hn]]. apply list_elem_of_In in Hr'.
    destruct (col_dealer_name r') as [n|] eqn:E; [|discriminate].
    injection Hn as Hn. exists r', n. auto.
  - intros [r' [n [Hr' [E Hn]]]]. exists r'. split.
    + now apply list_elem_of_In.
    + rewrite E. simpl. now rewrite Hn.
Qed.

(** X23. The Importer returns one record for each row of the full roster,
    in the order of the rows.  The record's ZIP is missing exactly when the
    ZIP cell is, its [coverage_zips] hold the address ZIP and nothing else,
    and it has no [coverage_radius_miles]. *)
Theorem importer_coverage_is_own_zip (df_112 df_top50 : list row) :
  List.Forall2
    (fun r d =>
       (zip (address d) = None <-> col_zip r = NaN) /\
       coverage_zips d =
         match zip (address d) with Some z => [z] | None => [] end /\
       coverage_radius_miles d = None)
    df_112 (process_excel df_112 df_top50).
Proof.
  eapply List.Forall2_impl; [|apply process_excel_rows].
  intros r d ->. simpl. split; [|split; [|reflexivity]].
  - destruct (col_zip r); simpl; split; congruence.
  - now destruct (col_zip r).
Qed.

(** X24. A ZIP that the Importer writes for a number from 0 to 99999, or
    for a text of one to five digits, is already in the normal form of the
    Expander: the Expander looks up that very ZIP. *)
Theorem importer_zip_is_normal_form (df_112 df_top50 : list row) :
  List.Forall2
    (fun r d =>
       Spec.zip_cell_in_range (col_zip r) = true ->
       exists z, zip (address d) = Some z /\ Expander.normalize_zip z = z)
    df_112 (process_excel df_112 df_top50).
Proof.
  eapply List.Forall2_impl; [|apply process_excel_rows].
  intros r d -> Hr. destruct (clean_zip_in_range _ Hr) as [z [Hz Hz5]].
  exists z. split; [exact Hz|]. now apply normalize_zip_fixed.
Qed.

End ImporterRecords.

(* ===================================================================== *)
(** ** Identifiers and coverage, once more *)
(* ===================================================================== *)

(** X25. Every generated identifier is made of lowercase letters, digits and
    underscores, has no two underscores in a row, does not start with an
    underscore and has at most 50 characters; it ends with an underscore
    only if it has exactly 50 characters. *)
Theorem generate_dealer_id_always (name : string) :
  let id := Importer.generate_dealer_id name in
  Py.all_chars Spec.id_char id = true /\
  Spec.double_underscore id = false /\
  Spec.leading_underscore id = false /\
  (String.length id <= 50)%nat /\
  (Spec.trailing_underscore id = true -> String.length id = 50%nat).
Proof. exact (generate_dealer_id_shape name). Qed.


